(** * set_rb_date_added_from_sc.py: matching and re-dating core

    A shallow embedding of the pure core of
    [experiments/rb-date-order/pyrekordbox-lab/set_rb_date_added_from_sc.py]:
    title normalisation, the two lookup dictionaries built from the
    SoundCloud likes, the row matcher, anchor resolution and the
    assignment of new [created_at] values.

    Conventions.
    - A Python [str] is a sequence of Unicode code points: [list N].
    - A Python [dict] keyed by [str] is a [gmap str _]; only lookups are
      observed, so insertion order is not modelled.
    - A naive [datetime] is the number of microseconds elapsed since
      0001-01-01T00:00:00 (the instant of ordinal 1), a [Z]; the valid
      range of the type and the [OverflowError] of the arithmetic are
      written out.
    - A call that may raise is a value of [Result]. *)

From Stdlib Require Import ZArith Ascii String.
From stdpp Require Import gmap list sorting.

Local Open Scope Z_scope.

(** ** Python strings *)

Abbreviation str := (list N).

(** ASCII literal to [str]; non-ASCII code points are written as numbers. *)
Definition lit (s : string) : str :=
  List.map N_of_ascii (list_ascii_of_string s).

(** [str.isspace] for one code point: the 29 code points for which
    CPython's [Py_UNICODE_ISSPACE] holds. *)
Definition isspace (c : N) : bool :=
  bool_decide (c ∈ [0x09; 0x0A; 0x0B; 0x0C; 0x0D; 0x1C; 0x1D; 0x1E; 0x1F; 0x20;
                     0x85; 0xA0; 0x1680; 0x2000; 0x2001; 0x2002; 0x2003; 0x2004;
                     0x2005; 0x2006; 0x2007; 0x2008; 0x2009; 0x200A; 0x2028;
                     0x2029; 0x202F; 0x205F; 0x3000]%N).

Fixpoint lstrip (s : str) : str :=
  match s with
  | c :: s' => if isspace c then lstrip s' else s
  | [] => []
  end.

(** [s.strip()] *)
Definition py_strip (s : str) : str :=
  reverse (lstrip (reverse (lstrip s))).

Definition flush (cur : str) : list str :=
  match cur with [] => [] | _ => [cur] end.

Fixpoint split_from (cur : str) (s : str) : list str :=
  match s with
  | [] => flush cur
  | c :: s' =>
      if isspace c then flush cur ++ split_from [] s'
      else split_from (cur ++ [c]) s'
  end.

(** [s.split()]: the maximal runs of non-whitespace code points. *)
Definition py_split (s : str) : list str := split_from [] s.

(** [sep.join(parts)] *)
Fixpoint py_join (sep : str) (parts : list str) : str :=
  match parts with
  | [] => []
  | [w] => w
  | w :: rest => w ++ sep ++ py_join sep rest
  end.

(** [s.replace(old, new)] for a one-code-point [old]. *)
Definition replace_char (old : N) (new : str) (s : str) : str :=
  s ≫= (λ c, if decide (c = old) then new else [c]).

Definition FULLWIDTH_COLON : N := 0xFF1A.

(** The two functions of the interpreter's Unicode database that
    [normalize_title] calls: [unicodedata.normalize("NFKC", _)] and
    [str.lower]. Both act on whole strings (composition and the final
    sigma rule look at neighbours). *)
Class UnicodeData := {
  normalize_NFKC : str → str;
  str_lower : str → str
}.

Section Normalizer.
Context `{UnicodeData}.

(** [normalize_title], lines 57-61. [raw or ""] is the identity on a
    [str]. *)
Definition normalize_title (raw : str) : str :=
  let text := normalize_NFKC raw in
  let text := replace_char FULLWIDTH_COLON (lit ":") text in
  py_join (lit " ") (py_split (py_strip (str_lower text))).

End Normalizer.

(** ** Exceptions *)

Inductive exn : Type := ValueError | OverflowError | RuntimeError.

Inductive Result (A : Type) : Type :=
| Ok (a : A)
| Raise (e : exn).
Arguments Ok {A} a.
Arguments Raise {A} e.

#[global] Instance Result_ret : MRet Result := λ A a, Ok a.
#[global] Instance Result_bind : MBind Result := λ A B k r,
  match r with Ok a => k a | Raise e => Raise e end.

#[global] Instance Result_fmap : FMap Result := λ A B f r,
  match r with Ok a => Ok (f a) | Raise e => Raise e end.

Definition raises {A} (r : Result A) : Prop := ∃ e, r = Raise e.

(** ** datetime *)

(** Microseconds since 0001-01-01T00:00:00. *)
Definition datetime : Type := Z.

Definition MAXORDINAL : Z := 3652059.
Definition US_PER_SECOND : Z := 1000000.
Definition US_PER_DAY : Z := 86400 * US_PER_SECOND.

(** [datetime.min <= t <= datetime.max] *)
Definition dt_valid (t : datetime) : Prop := 0 ≤ t < MAXORDINAL * US_PER_DAY.

Definition microsecond (t : datetime) : Z := t `mod` US_PER_SECOND.

(** [dt.replace(microsecond=us)] for [0 <= us < 1000000]. *)
Definition replace_microsecond (t : datetime) (us : Z) : datetime :=
  t - microsecond t + us.

(** A [timedelta], in microseconds. *)
Definition timedelta : Type := Z.

(** [timedelta(seconds=n)]: the day count must have magnitude at most
    999999999. *)
Definition timedelta_seconds (n : Z) : Result timedelta :=
  let days := n `div` 86400 in
  if decide (-999999999 ≤ days ≤ 999999999) then Ok (n * US_PER_SECOND)
  else Raise OverflowError.

(** [dt - td]: the result must be a [datetime] again. *)
Definition datetime_sub (t : datetime) (td : timedelta) : Result datetime :=
  let r := t - td in
  if decide (dt_valid r) then Ok r else Raise OverflowError.

(** [ensure_millis_precision], lines 82-88. *)
Definition ensure_millis_precision (dt : datetime) : datetime :=
  if decide (microsecond dt = 0) then replace_microsecond dt 900000
  else dt.

(** *** The proleptic Gregorian calendar of the [datetime] module *)

Definition is_leap (y : Z) : bool :=
  bool_decide (y `mod` 4 = 0 ∧ (y `mod` 100 ≠ 0 ∨ y `mod` 400 = 0)).

Definition days_before_year (y : Z) : Z :=
  let y1 := y - 1 in
  y1 * 365 + y1 `div` 4 - y1 `div` 100 + y1 `div` 400.

Definition days_in_month (y m : Z) : Z :=
  if decide (m = 2) then (if is_leap y then 29 else 28)
  else if bool_decide (m ∈ [4; 6; 9; 11]) then 30 else 31.

(** [_DAYS_BEFORE_MONTH[m]], the table of a non-leap year. *)
Definition DAYS_BEFORE_MONTH (m : Z) : Z :=
  nth (Z.to_nat m) [0; 0; 31; 59; 90; 120; 151; 181; 212; 243; 273; 304; 334] 0.

Definition days_before_month (y m : Z) : Z :=
  DAYS_BEFORE_MONTH m + (if bool_decide (2 < m) && is_leap y then 1 else 0).

Definition ymd2ord (y m d : Z) : Z :=
  days_before_year y + days_before_month y m + d.

(** [_ord2ymd] *)
Definition ord2ymd (n : Z) : Z * Z * Z :=
  let n := n - 1 in
  let n400 := n `div` 146097 in let n := n `mod` 146097 in
  let year := n400 * 400 + 1 in
  let n100 := n `div` 36524 in let n := n `mod` 36524 in
  let n4 := n `div` 1461 in let n := n `mod` 1461 in
  let n1 := n `div` 365 in let n := n `mod` 365 in
  let year := year + n100 * 100 + n4 * 4 + n1 in
  if bool_decide (n1 = 4 ∨ n100 = 4) then (year - 1, 12, 31)
  else
    let leapyear := bool_decide (n1 = 3 ∧ (n4 ≠ 24 ∨ n100 = 3)) in
    let month := Z.shiftr (n + 50) 5 in
    let preceding :=
      DAYS_BEFORE_MONTH month
      + (if bool_decide (2 < month) && leapyear then 1 else 0) in
    if decide (n < preceding) then
      let month := month - 1 in
      let preceding :=
        preceding
        - (nth (Z.to_nat month) [0; 31; 28; 31; 30; 31; 30; 31; 31; 30; 31; 30; 31] 0
           + (if bool_decide (month = 2) && leapyear then 1 else 0)) in
      (year, month, n - preceding + 1)
    else (year, month, n - preceding + 1).

(** [datetime(y, m, d, H, M, S, us)] *)
Definition mk_datetime (y m d H M S us : Z) : Result datetime :=
  if decide (1 ≤ y ≤ 9999 ∧ 1 ≤ m ≤ 12 ∧ 1 ≤ d ≤ days_in_month y m
             ∧ 0 ≤ H < 24 ∧ 0 ≤ M < 60 ∧ 0 ≤ S < 60 ∧ 0 ≤ us < US_PER_SECOND)
  then Ok ((((ymd2ord y m d - 1) * 24 + H) * 60 + M) * 60 * US_PER_SECOND
           + S * US_PER_SECOND + us)
  else Raise ValueError.

Record dt_fields : Type := Fields {
  f_year : Z; f_month : Z; f_day : Z;
  f_hour : Z; f_minute : Z; f_second : Z; f_microsecond : Z
}.

Definition fields_of (t : datetime) : dt_fields :=
  let days := t `div` US_PER_DAY in
  let rest := t `mod` US_PER_DAY in
  let '(y, m, d) := ord2ymd (days + 1) in
  let secs := rest `div` US_PER_SECOND in
  Fields y m d (secs `div` 3600) ((secs `mod` 3600) `div` 60) (secs `mod` 60)
         (rest `mod` US_PER_SECOND).

(** Decimal rendering, zero-padded to [width] digits. *)
Fixpoint zero_padded (width : nat) (n : Z) : str :=
  match width with
  | O => []
  | S w => zero_padded w (n `div` 10) ++ [Z.to_N (48 + n `mod` 10)]
  end.

(** [format_dt], lines 206-209: [strftime("%Y-%m-%d %H:%M:%S.%f")].
    ([%Y] is rendered with four digits; for years below 1000 the C
    library of some platforms drops the padding.) *)
Definition format_dt (dt : option datetime) : str :=
  match dt with
  | None => []
  | Some t =>
      let f := fields_of t in
      zero_padded 4 (f_year f) ++ lit "-" ++ zero_padded 2 (f_month f) ++ lit "-"
      ++ zero_padded 2 (f_day f) ++ lit " " ++ zero_padded 2 (f_hour f) ++ lit ":"
      ++ zero_padded 2 (f_minute f) ++ lit ":" ++ zero_padded 2 (f_second f)
      ++ lit "." ++ zero_padded 6 (f_microsecond f)
  end.

(** ** pathlib *)

Definition SLASH : N := 0x2F.
Definition DOT : N := 0x2E.

(** [s.split(sep)] for a one-code-point separator (empty parts kept). *)
Fixpoint split_on (sep : N) (cur : str) (s : str) : list str :=
  match s with
  | [] => [cur]
  | c :: s' =>
      if decide (c = sep) then cur :: split_on sep [] s'
      else split_on sep (cur ++ [c]) s'
  end.

(** [PurePosixPath(p).name]: the last component that is neither empty
    nor ["."]; the empty string when there is none. *)
Definition path_name (p : str) : str :=
  default [] (last (filter (λ part, part ≠ [] ∧ part ≠ [DOT]) (split_on SLASH [] p))).

(** [s.rfind(c)] *)
Fixpoint rfind (c : N) (s : str) : option nat :=
  match s with
  | [] => None
  | d :: s' =>
      match rfind c s' with
      | Some i => Some (S i)
      | None => if decide (d = c) then Some O else None
      end
  end.

(** [Path(p).stem] (POSIX flavour, CPython 3.8-3.13): a pure function of
    the path string. *)
Definition path_stem (p : str) : str :=
  let name := path_name p in
  match rfind DOT name with
  | Some i => if decide (0 < i < length name - 1)%nat then take i name else name
  | None => name
  end.

(** [str(x)] for an optional string column: [None] prints as ["None"]. *)
Definition py_str (x : option str) : str := default (lit "None") x.

(** Truthiness of an optional string: [None] and [""] are falsy. *)
Definition truthy (x : option str) : bool :=
  match x with Some (_ :: _) => true | _ => false end.

(** ** Records *)

Module LikeEntry.
Record t : Type := mk { index : Z; sc_id : str; title : str; url : str }.
End LikeEntry.

(** The three columns of [tables.DjmdContent] the script reads. *)
Module DjmdContent.
Record t : Type := mk {
  FolderPath : option str;
  Title : option str;
  created_at : option datetime
}.
End DjmdContent.

Module Match.
Record t : Type := mk {
  row : DjmdContent.t;
  file_path : str;
  local_title : str;
  sc_index : Z;
  sc_id : str;
  sc_title : str;
  sc_url : str;
  match_mode : str;
  old_created_at : option datetime;
  new_created_at : option datetime
}.
End Match.

Module Unmatched.
Record t : Type := mk { file_path : str; local_title : str; reason : str }.
End Unmatched.

(** One element of the [entries] array of the yt-dlp payload; a JSON
    [null] or missing key is [None]. *)
Module PayloadEntry.
Record t : Type := mk {
  title : option str;
  id : option str;
  url : option str;
  webpage_url : option str
}.
End PayloadEntry.

(** [x or y] on optional strings, then the empty string as last resort. *)
Definition or_str (x : option str) (rest : str) : str :=
  if truthy x then default [] x else rest.

(** [fetch_likes], lines 111-124: the part after the payload has been
    fetched and parsed. [i] is the 1-based position of the entry. *)
Fixpoint collect_likes (i : Z) (entries : list (option PayloadEntry.t))
  : list LikeEntry.t :=
  match entries with
  | [] => []
  | None :: rest => collect_likes (i + 1) rest
  | Some entry :: rest =>
      let title := py_strip (or_str (PayloadEntry.title entry) []) in
      match title with
      | [] => collect_likes (i + 1) rest
      | _ =>
          let sc_id := or_str (PayloadEntry.id entry) [] in
          let url :=
            or_str (PayloadEntry.url entry)
                   (or_str (PayloadEntry.webpage_url entry) []) in
          LikeEntry.mk i sc_id title url :: collect_likes (i + 1) rest
      end
  end.

Definition fetch_likes (entries : list (option PayloadEntry.t))
  : Result (list LikeEntry.t) :=
  let likes := collect_likes 1 entries in
  match likes with
  | [] => Raise RuntimeError
  | _ => Ok likes
  end.

(** [d.setdefault(k, v)], as used for its effect on [d]. *)
Definition setdefault {V} (k : str) (v : V) (d : gmap str V) : gmap str V :=
  match d !! k with
  | Some _ => d
  | None => <[k := v]> d
  end.

(** [sorted(l, key=key)]: a stable sort. *)
Fixpoint insert_by {A} (key : A → Z) (x : A) (l : list A) : list A :=
  match l with
  | [] => [x]
  | y :: l' => if decide (key x ≤ key y) then x :: l else y :: insert_by key x l'
  end.

Definition sorted {A} (key : A → Z) (l : list A) : list A :=
  foldr (insert_by key) [] l.

(** ** The likes index and the row matcher *)

Section Matching.
Context `{UnicodeData}.

(** The body of the loop of [build_likes_maps], lines 133-136. *)
Definition index_step (acc : gmap str LikeEntry.t * gmap str LikeEntry.t)
  (item : LikeEntry.t) : gmap str LikeEntry.t * gmap str LikeEntry.t :=
  let '(by_exact, by_norm) := acc in
  let by_exact := setdefault (LikeEntry.title item) item by_exact in
  let norm := normalize_title (LikeEntry.title item) in
  match norm with
  | [] => (by_exact, by_norm)
  | _ => (by_exact, setdefault norm item by_norm)
  end.

(** [build_likes_maps], lines 127-137. *)
Definition build_likes_maps (likes : list LikeEntry.t)
  : gmap str LikeEntry.t * gmap str LikeEntry.t :=
  fold_left index_step likes (∅, ∅).

(** [find_local_title], lines 140-144. *)
Definition find_local_title (row : DjmdContent.t) : str :=
  if truthy (DjmdContent.Title row) then py_str (DjmdContent.Title row)
  else path_stem (py_str (DjmdContent.FolderPath row)).

(** The first loop over [candidates], lines 161-165. *)
Fixpoint scan_exact (by_exact : gmap str LikeEntry.t) (candidates : list str)
  : option LikeEntry.t :=
  match candidates with
  | [] => None
  | candidate :: rest =>
      match by_exact !! candidate with
      | Some item => Some item
      | None => scan_exact by_exact rest
      end
  end.

(** The second loop over [candidates], lines 168-173. *)
Fixpoint scan_norm (by_norm : gmap str LikeEntry.t) (candidates : list str)
  : option LikeEntry.t :=
  match candidates with
  | [] => None
  | candidate :: rest =>
      let norm := normalize_title candidate in
      match norm with
      | [] => scan_norm by_norm rest
      | _ =>
          match by_norm !! norm with
          | Some item => Some item
          | None => scan_norm by_norm rest
          end
      end
  end.

(** Lines 157-173: the entry found for a candidate list, with its mode. *)
Definition lookup_candidates (by_exact by_norm : gmap str LikeEntry.t)
  (candidates : list str) : option (LikeEntry.t * str) :=
  match scan_exact by_exact candidates with
  | Some item => Some (item, lit "exact")
  | None =>
      match scan_norm by_norm candidates with
      | Some item => Some (item, lit "normalized")
      | None => None
      end
  end.

(** The body of the loop of [match_rows_to_likes], lines 153-193, on the
    two result lists. *)
Definition match_row (by_exact by_norm : gmap str LikeEntry.t)
  (acc : list Match.t * list Unmatched.t) (row : DjmdContent.t)
  : list Match.t * list Unmatched.t :=
  let '(matched, unmatched) := acc in
  let file_path := py_str (DjmdContent.FolderPath row) in
  let local_title := find_local_title row in
  let basename_stem := path_stem file_path in
  let candidates := [local_title; basename_stem] in
  match lookup_candidates by_exact by_norm candidates with
  | None =>
      (matched,
       unmatched ++ [Unmatched.mk file_path local_title (lit "not-found-in-likes")])
  | Some (item, mode) =>
      (matched ++
         [Match.mk row file_path local_title (LikeEntry.index item)
            (LikeEntry.sc_id item) (LikeEntry.title item) (LikeEntry.url item)
            mode (DjmdContent.created_at row) None],
       unmatched)
  end.

(** [match_rows_to_likes], lines 147-194. *)
Definition match_rows_to_likes (rows : list DjmdContent.t)
  (by_exact by_norm : gmap str LikeEntry.t) : list Match.t * list Unmatched.t :=
  fold_left (match_row by_exact by_norm) rows ([], []).

End Matching.

(** ** Anchor resolution and assignment ([main], lines 331-351) *)

Record Args : Type := mkArgs {
  step_seconds : Z;
  anchor_datetime : str;
  use_like_index_offset : bool
}.

(** [a < b] on values that may be [None]; the generator of line 339
    only yields datetimes. *)
Definition dt_lt (a b : option datetime) : bool :=
  match a, b with
  | Some x, Some y => bool_decide (x < y)
  | _, _ => false
  end.

(** [max(iterable)]: [ValueError] on an empty iterable, otherwise the
    first greatest element. *)
Definition py_max (l : list (option datetime)) : Result (option datetime) :=
  match l with
  | [] => Raise ValueError
  | x :: rest => Ok (fold_left (λ best y, if dt_lt best y then y else best) rest x)
  end.

Definition set_new_created_at (m : Match.t) (t : datetime) : Match.t :=
  Match.mk
    (DjmdContent.mk (DjmdContent.FolderPath (Match.row m))
                    (DjmdContent.Title (Match.row m)) (Some t))
    (Match.file_path m) (Match.local_title m) (Match.sc_index m) (Match.sc_id m)
    (Match.sc_title m) (Match.sc_url m) (Match.match_mode m)
    (Match.old_created_at m) (Some t).

(** The loop of lines 345-351 from position [pos] on; [anchor] is the
    value bound at line 342. *)
Fixpoint assign_from (args : Args) (anchor : datetime) (pos : Z)
  (ms : list Match.t) : Result (list Match.t) :=
  match ms with
  | [] => Ok []
  | m :: rest =>
      let offset_steps :=
        if use_like_index_offset args then Match.sc_index m - 1 else pos in
      td ← timedelta_seconds (offset_steps * step_seconds args);
      t ← datetime_sub anchor td;
      let m' := set_new_created_at m (ensure_millis_precision t) in
      rest' ← assign_from args anchor (pos + 1) rest;
      Ok (m' :: rest')
  end.

(** Lines 342-351: the fix of the anchor, the sort and the loop. *)
Definition assign_created_at (args : Args) (anchor : datetime)
  (matched : list Match.t) : Result (list Match.t) :=
  let anchor := ensure_millis_precision anchor in
  let matched_sorted := sorted Match.sc_index matched in
  assign_from args anchor 0 matched_sorted.

Section Main.
Context `{UnicodeData}.
(** [datetime.strptime(raw, fmt)]; [ValueError] when [raw] does not
    match [fmt]. *)
Variable strptime : str → str → Result datetime.

(** [parse_anchor_datetime], lines 64-79. *)
Definition parse_anchor_datetime (raw : str) : Result datetime :=
  let candidates :=
    [lit "%Y-%m-%dT%H:%M:%S"; lit "%Y-%m-%d %H:%M:%S";
     lit "%Y-%m-%dT%H:%M"; lit "%Y-%m-%d %H:%M"] in
  foldr (λ fmt next,
           match strptime raw fmt with
           | Ok dt => Ok dt
           | Raise _ => next
           end)
        (Raise ValueError) candidates.

(** Lines 336-341. [now] is the value [datetime.now()] would return. *)
Definition resolve_anchor (args : Args) (matched : list Match.t)
  (now : datetime) : Result datetime :=
  match anchor_datetime args with
  | _ :: _ => parse_anchor_datetime (anchor_datetime args)
  | [] =>
      anchor ← py_max (filter (λ o, o ≠ None) (Match.old_created_at <$> matched));
      match anchor with
      | None => Ok now
      | Some anchor => Ok anchor
      end
  end.

Inductive Outcome : Type :=
| Exit (code : Z)
| Planned (anchor : datetime) (matched_sorted : list Match.t)
          (unmatched : list Unmatched.t).

(** [main], lines 266-351, over the values its collaborators hand it:
    the parsed arguments, the entries of the fetched payload, the rows
    under the target directory and the clock. The checks that
    [master.db] and the target directory exist (lines 270-276) and the
    run manifests belong to the file system and are left out. *)
Definition main (args : Args) (entries : list (option PayloadEntry.t))
  (rows : list DjmdContent.t) (now : datetime) : Result Outcome :=
  if decide (step_seconds args < 1) then Ok (Exit 2)
  else
    likes ← fetch_likes entries;
    let '(by_exact, by_norm) := build_likes_maps likes in
    match rows with
    | [] => Ok (Exit 3)
    | _ =>
        let '(matched, unmatched) := match_rows_to_likes rows by_exact by_norm in
        match matched with
        | [] => Ok (Exit 3)
        | _ =>
            anchor ← resolve_anchor args matched now;
            planned ← assign_created_at args anchor matched;
            Ok (Planned (ensure_millis_precision anchor) planned unmatched)
        end
    end.

End Main.

(** ** A fragment of the Unicode Character Database

    [normalize_NFKC] and [str_lower] restricted to the alphabet
    Basic Latin (U+0000-U+007F), FULLWIDTH COLON (U+FF1A), COMBINING CARON
    (U+030C) and the 33 letters that are a Basic Latin letter with caron.
    On strings over this alphabet the two functions below are those of
    the Unicode standard: the only decompositions are U+FF1A to U+003A
    and a caron letter to its base and U+030C, there is one combining
    class, so no reordering, and the only primary composites are the
    pairs of [caron_pairs]. *)

Definition COMBINING_CARON : N := 0x30C.

(** (base, composite): composite = base followed by U+030C. *)
Definition caron_pairs : list (N * N) :=
  [(0x43, 0x10C); (0x63, 0x10D); (0x44, 0x10E); (0x64, 0x10F); (0x45, 0x11A);
   (0x65, 0x11B); (0x4C, 0x13D); (0x6C, 0x13E); (0x4E, 0x147); (0x6E, 0x148);
   (0x52, 0x158); (0x72, 0x159); (0x53, 0x160); (0x73, 0x161); (0x54, 0x164);
   (0x74, 0x165); (0x5A, 0x17D); (0x7A, 0x17E); (0x41, 0x1CD); (0x61, 0x1CE);
   (0x49, 0x1CF); (0x69, 0x1D0); (0x4F, 0x1D1); (0x6F, 0x1D2); (0x55, 0x1D3);
   (0x75, 0x1D4); (0x47, 0x1E6); (0x67, 0x1E7); (0x4B, 0x1E8); (0x6B, 0x1E9);
   (0x6A, 0x1F0); (0x48, 0x21E); (0x68, 0x21F)]%N.

Definition composite_of (base : N) : option N :=
  (λ hit, snd (snd hit)) <$> list_find (λ p, fst p = base) caron_pairs.

Definition base_of (c : N) : option N :=
  (λ hit, fst (snd hit)) <$> list_find (λ p, snd p = c) caron_pairs.

(** Compatibility decomposition of one code point. *)
Definition decompose (c : N) : str :=
  if decide (c = FULLWIDTH_COLON) then [0x3A%N]
  else match base_of c with
       | Some b => [b; COMBINING_CARON]
       | None => [c]
       end.

(** Canonical composition: a base directly followed by U+030C composes
    when the pair has a primary composite. *)
Fixpoint compose (s : str) : str :=
  match s with
  | [] => []
  | b :: tl =>
      match tl with
      | m :: rest =>
          match (if decide (m = COMBINING_CARON) then composite_of b else None) with
          | Some c => c :: compose rest
          | None => b :: compose tl
          end
      | [] => [b]
      end
  end.

Definition is_upper_ascii (c : N) : bool :=
  bool_decide (0x41 ≤ c ≤ 0x5A)%N.

Definition lower1 (c : N) : N :=
  if is_upper_ascii c then (c + 32)%N
  else match base_of c with
       | Some b => if is_upper_ascii b then default c (composite_of (b + 32)%N) else c
       | None => c
       end.

#[global] Instance latin_caron : UnicodeData := {|
  normalize_NFKC s := compose (s ≫= decompose);
  str_lower s := lower1 <$> s
|}.

(** ** The offsets and timestamps of the specification *)

(** Follows the spec's words: [offsetSteps = p] under dense mode,
    [offsetSteps = r - 1] under rankGap mode. *)
Definition spec_offset_steps (rank_gap : bool) (p : nat) (r : Z) : Z :=
  if rank_gap then r - 1 else Z.of_nat p.

(** Follows the spec's words:
    [newTimestamp = subSecondFix(anchor) - offsetSteps * step]. *)
Definition spec_new_timestamp (args : Args) (anchor : datetime) (p : nat) (r : Z)
  : datetime :=
  ensure_millis_precision anchor
  - spec_offset_steps (use_like_index_offset args) p r
    * step_seconds args * US_PER_SECOND.

(** Every timestamp of the batch is a [datetime]. *)
Definition batch_in_range (args : Args) (anchor : datetime)
  (matched : list Match.t) : Prop :=
  Forall dt_valid
    (imap (λ p m, spec_new_timestamp args anchor p (Match.sc_index m))
          (sorted Match.sc_index matched)).

#[global] Instance dt_valid_dec t : Decision (dt_valid t).
Proof. unfold dt_valid. apply _. Defined.

#[global] Instance batch_in_range_dec args anchor matched :
  Decision (batch_in_range args anchor matched).
Proof. unfold batch_in_range. apply _. Defined.

(** The order by which [sorted] arranges its result. *)
Definition key_le {A} (key : A → Z) (a b : A) : Prop := key a ≤ key b.

(** ** The end-to-end example of the specification *)

Definition ex_likes : list LikeEntry.t :=
  [LikeEntry.mk 1 (lit "101") (lit "A") (lit "https://soundcloud.com/u/a");
   LikeEntry.mk 2 (lit "102") (lit "B") (lit "https://soundcloud.com/u/b");
   LikeEntry.mk 3 (lit "103") (lit "C") (lit "https://soundcloud.com/u/c");
   LikeEntry.mk 4 (lit "104") (lit "D") (lit "https://soundcloud.com/u/d")].

Definition ex_row (file title : string) : DjmdContent.t :=
  DjmdContent.mk (Some (lit "/Music/sc/" ++ lit file)) (Some (lit title)) None.

Definition ex_rows : list DjmdContent.t :=
  [ex_row "track1.mp3" "b"; ex_row "track2.mp3" "A";
   ex_row "track3.mp3" "d"; ex_row "track4.mp3" "Z"].

Definition ex_match : list Match.t * list Unmatched.t :=
  let '(by_exact, by_norm) := build_likes_maps ex_likes in
  match_rows_to_likes ex_rows by_exact by_norm.

(** 2024-01-01T00:00:00 *)
Definition ex_anchor : datetime := 63839664000000000.

Definition ex_dense : Args := mkArgs 1 [] false.
Definition ex_rank_gap : Args := mkArgs 1 [] true.

(** [offset_steps] of lines 346-349 at loop position [pos]. *)
Definition loop_offset (args : Args) (pos : Z) (m : Match.t) : Z :=
  if use_like_index_offset args then Match.sc_index m - 1 else pos.

(** Two rows with the same title, as for one track kept in two formats. *)
Definition dup_rows : list DjmdContent.t :=
  [ex_row "a.mp3" "A"; ex_row "a.wav" "A"].

Definition dup_match : list Match.t * list Unmatched.t :=
  let '(by_exact, by_norm) := build_likes_maps ex_likes in
  match_rows_to_likes dup_rows by_exact by_norm.

Definition result_to_option {A} (r : Result A) : option A :=
  match r with Ok a => Some a | Raise _ => None end.

(** ** Per-row view of the matcher *)

Section MatchingSpec.
Context `{UnicodeData}.

(** [candidates] of line 157. *)
Definition candidates_of (row : DjmdContent.t) : list str :=
  [find_local_title row; path_stem (py_str (DjmdContent.FolderPath row))].

(** Follows the spec's words: [[record.title if present,
    derivedStemTitle(record.path)]]. *)
Definition spec_candidates (row : DjmdContent.t) : list str :=
  (if truthy (DjmdContent.Title row) then [py_str (DjmdContent.Title row)] else [])
  ++ [path_stem (py_str (DjmdContent.FolderPath row))].

(** The guarded lookup of line 170: [norm and norm in by_norm]. *)
Definition norm_lookup (by_norm : gmap str LikeEntry.t) (candidate : str)
  : option LikeEntry.t :=
  match normalize_title candidate with
  | [] => None
  | norm => by_norm !! norm
  end.

(** What one iteration of the loop appends, and to which list. *)
Definition row_outcome (by_exact by_norm : gmap str LikeEntry.t)
  (row : DjmdContent.t) : Match.t + Unmatched.t :=
  let file_path := py_str (DjmdContent.FolderPath row) in
  match lookup_candidates by_exact by_norm (candidates_of row) with
  | None =>
      inr (Unmatched.mk file_path (find_local_title row) (lit "not-found-in-likes"))
  | Some (item, mode) =>
      inl (Match.mk row file_path (find_local_title row) (LikeEntry.index item)
             (LikeEntry.sc_id item) (LikeEntry.title item) (LikeEntry.url item)
             mode (DjmdContent.created_at row) None)
  end.

End MatchingSpec.

Fixpoint lefts {A B} (l : list (A + B)) : list A :=
  match l with
  | [] => []
  | inl a :: l' => a :: lefts l'
  | inr _ :: l' => lefts l'
  end.

Fixpoint rights {A B} (l : list (A + B)) : list B :=
  match l with
  | [] => []
  | inl _ :: l' => rights l'
  | inr b :: l' => b :: rights l'
  end.

(** ** Predicates on strings used to state the idempotence of
    [normalize_title] *)

Definition nospace (w : str) : Prop := Forall (λ c, isspace c = false) w.

(** A word: what [split] returns. *)
Definition word (w : str) : Prop := w ≠ [] ∧ nospace w.

(** Basic Latin. *)
Definition basic (c : N) : Prop := (c < 128)%N.

(** Basic Latin or the full-width colon. *)
Definition plain (c : N) : Prop := basic c ∨ c = FULLWIDTH_COLON.

(** Basic Latin without the upper-case letters. *)
Definition basic_lower (c : N) : Prop := basic c ∧ is_upper_ascii c = false.

(** LATIN CAPITAL LETTER J followed by COMBINING CARON. *)
Definition J_caron : str := [0x4A; 0x30C]%N.

(** The payload whose entries are the four likes of the example. *)
Definition ex_entries : list (option PayloadEntry.t) :=
  (λ e, Some (PayloadEntry.mk (Some (LikeEntry.title e)) (Some (LikeEntry.sc_id e))
                              (Some (LikeEntry.url e)) None)) <$> ex_likes.

(** A [strptime] that rejects every input. *)
Definition strptime_reject : str → str → Result datetime :=
  λ _ _, Raise ValueError.

(** A step of two thousand years, in seconds. *)
Definition ex_huge_step : Args := mkArgs 63115200000 [] false.

(** The like that [fetch_likes] builds from the entry at 1-based
    position [i] (lines 116-121). *)
Definition like_of (i : Z) (entry : PayloadEntry.t) : LikeEntry.t :=
  LikeEntry.mk i (or_str (PayloadEntry.id entry) [])
    (py_strip (or_str (PayloadEntry.title entry) []))
    (or_str (PayloadEntry.url entry) (or_str (PayloadEntry.webpage_url entry) [])).

(** The [Match] record of lines 182-192 for a row and the like found. *)
Definition match_of (row : DjmdContent.t) (item : LikeEntry.t)
  (mode : str) : Match.t :=
  Match.mk row (py_str (DjmdContent.FolderPath row)) (find_local_title row)
    (LikeEntry.index item) (LikeEntry.sc_id item) (LikeEntry.title item)
    (LikeEntry.url item) mode (DjmdContent.created_at row) None.

(** A payload with a [null] entry and an entry without title between
    two titled ones. *)
Definition ex_gap_entries : list (option PayloadEntry.t) :=
  [Some (PayloadEntry.mk (Some (lit " One ")) (Some (lit "11")) None
                         (Some (lit "https://soundcloud.com/u/one")));
   None;
   Some (PayloadEntry.mk (Some (lit "  ")) (Some (lit "13")) None None);
   Some (PayloadEntry.mk (Some (lit "Four")) None (Some (lit "https://api/4")) None)].

(** The colon variant folded: U+FF1A to U+003A. *)
Definition fold_colon (c : N) : N :=
  if decide (c = FULLWIDTH_COLON) then 0x3A%N else c.

(** A row without title whose file is [dir/name.ext]. *)
Definition untitled_row (dir name ext : str) : DjmdContent.t :=
  DjmdContent.mk (Some (dir ++ [SLASH] ++ name ++ [DOT] ++ ext)) None None.

(** The formats [parse_anchor_datetime] tries, in its order (lines 65-70). *)
Definition anchor_formats : list str :=
  [lit "%Y-%m-%dT%H:%M:%S"; lit "%Y-%m-%d %H:%M:%S";
   lit "%Y-%m-%dT%H:%M"; lit "%Y-%m-%d %H:%M"].

(** A [strptime] that accepts the third format only. *)
Definition strptime_minutes : str → str → Result datetime :=
  λ raw fmt, if decide (fmt = lit "%Y-%m-%dT%H:%M") then Ok ex_anchor
             else Raise ValueError.

(** The matched rows of the example with old timestamps on two of them. *)
Definition ex_dated : list Match.t :=
  match fst ex_match with
  | m1 :: m2 :: m3 :: _ =>
      [Match.mk (Match.row m1) (Match.file_path m1) (Match.local_title m1)
         (Match.sc_index m1) (Match.sc_id m1) (Match.sc_title m1) (Match.sc_url m1)
         (Match.match_mode m1) (Some (ex_anchor - 5000000)) None;
       m2;
       Match.mk (Match.row m3) (Match.file_path m3) (Match.local_title m3)
         (Match.sc_index m3) (Match.sc_id m3) (Match.sc_title m3) (Match.sc_url m3)
         (Match.match_mode m3) (Some ex_anchor) None]
  | _ => []
  end.

(** The [Unmatched] record of lines 176-178 for a row. *)
Definition unmatched_of (row : DjmdContent.t) : Unmatched.t :=
  Unmatched.mk (py_str (DjmdContent.FolderPath row)) (find_local_title row)
               (lit "not-found-in-likes").

(** What the loop of [match_rows_to_likes] appends for one row
    (lines 175-193), given what the two scans of the candidates found. *)
Definition outcome_lists (row : DjmdContent.t) (found : option (LikeEntry.t * str))
  : list Match.t * list Unmatched.t :=
  match found with
  | Some (item, mode) => ([match_of row item mode], [])
  | None => ([], [unmatched_of row])
  end.

(** What [fetch_likes] gets from its collaborators (lines 98-111):
    whether [shutil.which] finds [yt-dlp], the return code of the
    process, and its output: [None] when [json.loads] rejects it,
    otherwise the value of the ["entries"] key of the JSON object that
    [yt-dlp -J] prints, [None] when the key is missing or null. *)
Record FetchRun : Type := mkFetchRun {
  yt_dlp_found : bool;
  returncode : Z;
  payload_entries : option (option (list (option PayloadEntry.t)))
}.

(** [fetch_likes], lines 97-124, from [require_cmd] on: the three
    [RuntimeError]s of lines 94, 102 and 109, then
    [payload.get("entries") or []] and the loop over the entries. *)
Definition fetch_likes_run (run : FetchRun) : Result (list LikeEntry.t) :=
  if negb (yt_dlp_found run) then Raise RuntimeError
  else if decide (returncode run ≠ 0) then Raise RuntimeError
  else match payload_entries run with
       | None => Raise RuntimeError
       | Some entries => fetch_likes (default [] entries)
       end.

Section MainFull.
Context `{UnicodeData}.
Variable strptime : str → str → Result datetime.

(** [main], lines 266-351, with the checks of lines 270-276 and the
    whole of [fetch_likes]: over the parsed arguments, whether
    [master.db] and the target directory exist, the run of [yt-dlp], the
    rows that the database returns for the target directory, and the
    clock. Writing the manifests and opening the database are taken to
    succeed. *)
Definition main_full (args : Args) (db_exists target_exists : bool)
  (run : FetchRun) (rows : list DjmdContent.t) (now : datetime) : Result Outcome :=
  if decide (step_seconds args < 1) then Ok (Exit 2)
  else if negb db_exists then Ok (Exit 2)
  else if negb target_exists then Ok (Exit 2)
  else
    likes ← fetch_likes_run run;
    let '(by_exact, by_norm) := build_likes_maps likes in
    match rows with
    | [] => Ok (Exit 3)
    | _ =>
        let '(matched, unmatched) := match_rows_to_likes rows by_exact by_norm in
        match matched with
        | [] => Ok (Exit 3)
        | _ =>
            anchor ← resolve_anchor strptime args matched now;
            planned ← assign_created_at args anchor matched;
            Ok (Planned (ensure_millis_precision anchor) planned unmatched)
        end
    end.

End MainFull.

(** A run of [yt-dlp] that returned the payload of the example. *)
Definition ex_run : FetchRun := mkFetchRun true 0 (Some (Some ex_entries)).

(** * Properties *)

(** ** Sub-second fix *)

Lemma microsecond_range t : 0 ≤ microsecond t < US_PER_SECOND.
Proof. unfold microsecond, US_PER_SECOND. apply Z.mod_pos_bound. lia. Qed.

Lemma microsecond_replace t us :
  0 ≤ us < US_PER_SECOND → microsecond (replace_microsecond t us) = us.
Proof.
  intros Hus. unfold replace_microsecond, microsecond.
  rewrite (Z.div_mod t US_PER_SECOND) at 1 by (unfold US_PER_SECOND; lia).
  replace (US_PER_SECOND * (t `div` US_PER_SECOND) + t `mod` US_PER_SECOND
           - t `mod` US_PER_SECOND + us)
    with (us + (t `div` US_PER_SECOND) * US_PER_SECOND) by lia.
  rewrite Z.mod_add by (unfold US_PER_SECOND; lia).
  apply Z.mod_small. exact Hus.
Qed.

Lemma ensure_millis_precision_nonzero dt :
  microsecond (ensure_millis_precision dt) ≠ 0.
Proof.
  unfold ensure_millis_precision. case_decide as Hz; [|exact Hz].
  rewrite microsecond_replace; unfold US_PER_SECOND; lia.
Qed.

Lemma ensure_millis_precision_fixed dt :
  microsecond dt ≠ 0 → ensure_millis_precision dt = dt.
Proof. intros Hnz. unfold ensure_millis_precision. case_decide; [lia|done]. Qed.

Lemma ensure_millis_precision_idem dt :
  ensure_millis_precision (ensure_millis_precision dt) = ensure_millis_precision dt.
Proof. apply ensure_millis_precision_fixed, ensure_millis_precision_nonzero. Qed.

Lemma ensure_millis_precision_whole dt :
  microsecond dt = 0 →
  ensure_millis_precision dt = dt + 900000
  ∧ microsecond (ensure_millis_precision dt) = 900000.
Proof.
  intros Hz. unfold ensure_millis_precision. case_decide; [|lia]. split.
  - unfold replace_microsecond. lia.
  - apply microsecond_replace. unfold US_PER_SECOND. lia.
Qed.

Lemma microsecond_minus_seconds t n :
  microsecond (t - n * US_PER_SECOND) = microsecond t.
Proof.
  unfold microsecond.
  replace (t - n * US_PER_SECOND) with (t + (- n) * US_PER_SECOND) by lia.
  apply Z.mod_add. unfold US_PER_SECOND. lia.
Qed.

Lemma ensure_millis_precision_valid dt :
  dt_valid dt → dt_valid (ensure_millis_precision dt).
Proof.
  unfold dt_valid, ensure_millis_precision, replace_microsecond, microsecond,
    MAXORDINAL, US_PER_DAY, US_PER_SECOND.
  intros Hv. case_decide as Hz; [|exact Hv].
  pose proof (Z.div_mod dt 1000000 ltac:(lia)) as Hdm.
  rewrite Hz. rewrite Hz in Hdm.
  split; [lia|].
  assert (dt `div` 1000000 < 3652059 * 86400)
    by (apply Z.div_lt_upper_bound; lia).
  lia.
Qed.

(** ** The assignment loop *)

Lemma timedelta_seconds_ok anchor n :
  dt_valid anchor → dt_valid (anchor - n * US_PER_SECOND) →
  timedelta_seconds n = Ok (n * US_PER_SECOND).
Proof.
  unfold dt_valid, timedelta_seconds, MAXORDINAL, US_PER_DAY, US_PER_SECOND.
  intros Ha Hr. case_decide as Hd; [done|]. exfalso. apply Hd.
  assert (- (3652059 * 86400) < n < 3652059 * 86400) as Hn by lia.
  split.
  - apply Z.div_le_lower_bound; lia.
  - assert (n `div` 86400 < 3652059 + 1); [|lia].
    apply Z.div_lt_upper_bound; lia.
Qed.

Lemma assign_from_total args anchor pos ms :
  dt_valid anchor →
  (∀ i m, ms !! i = Some m →
     dt_valid (anchor - loop_offset args (pos + Z.of_nat i) m
                        * step_seconds args * US_PER_SECOND)) →
  ∃ out, assign_from args anchor pos ms = Ok out.
Proof.
  intros Ha. revert pos. induction ms as [|m rest IH]; intros pos Hr.
  - by eexists.
  - cbn [assign_from]. fold (loop_offset args pos m).
    pose proof (Hr 0%nat m eq_refl) as H0.
    change (Z.of_nat 0) with 0 in H0. rewrite Z.add_0_r in H0.
    rewrite (timedelta_seconds_ok anchor) by done.
    cbn. unfold datetime_sub. rewrite decide_True by done. cbn.
    destruct (IH (pos + 1)) as [out Hout].
    + intros i m' Hi. specialize (Hr (S i) m' Hi).
      replace (pos + 1 + Z.of_nat i) with (pos + Z.of_nat (S i)) by lia. done.
    + rewrite Hout. by eexists.
Qed.

Lemma assign_from_Ok args anchor pos ms out :
  assign_from args anchor pos ms = Ok out →
  length out = length ms
  ∧ ∀ i m, ms !! i = Some m →
      let t := anchor - loop_offset args (pos + Z.of_nat i) m
                        * step_seconds args * US_PER_SECOND in
      dt_valid t
      ∧ out !! i = Some (set_new_created_at m (ensure_millis_precision t)).
Proof.
  revert pos out. induction ms as [|m rest IH]; intros pos out Hout.
  - cbn in Hout. injection Hout as <-. split; [done|]. intros i m Hi. done.
  - cbn [assign_from] in Hout. fold (loop_offset args pos m) in Hout.
    unfold timedelta_seconds in Hout. case_decide as Hd; [|done].
    cbn in Hout. unfold datetime_sub in Hout. case_decide as Hv; [|done].
    cbn in Hout.
    destruct (assign_from args anchor (pos + 1) rest) as [rest'|e] eqn:Hrest;
      [|done].
    cbn in Hout. injection Hout as <-.
    destruct (IH _ _ Hrest) as [Hlen Hnth].
    split; [cbn; by rewrite Hlen|].
    intros [|i] m' Hi; cbn in Hi.
    + injection Hi as <-. cbn zeta.
      change (Z.of_nat 0) with 0. rewrite Z.add_0_r. done.
    + specialize (Hnth i m' Hi). cbn zeta in Hnth |- *.
      replace (pos + Z.of_nat (S i)) with (pos + 1 + Z.of_nat i) by lia.
      exact Hnth.
Qed.

(** ** [sorted]: a stable sort by key *)

Section Sorted.
Context {A : Type} (key : A → Z).

Lemma insert_by_perm x l : insert_by key x l ≡ₚ x :: l.
Proof.
  induction l as [|y l IH]; [done|]. cbn. case_decide; [done|].
  rewrite IH. apply Permutation_swap.
Qed.

Lemma sorted_perm l : sorted key l ≡ₚ l.
Proof.
  induction l as [|x l IH]; [done|]. cbn. fold (sorted key l).
  by rewrite insert_by_perm, IH.
Qed.

Lemma sorted_length l : length (sorted key l) = length l.
Proof. apply Permutation_length, sorted_perm. Qed.

Lemma insert_by_strongly_sorted x l :
  StronglySorted (key_le key) l → StronglySorted (key_le key) (insert_by key x l).
Proof.
  induction 1 as [|y l Hs IH Hy]; cbn.
  - repeat constructor.
  - case_decide as Hxy.
    + constructor; [by constructor|]. constructor; [exact Hxy|].
      eapply Forall_impl; [exact Hy|]. unfold key_le. intros z Hz. lia.
    + constructor; [exact IH|]. rewrite insert_by_perm. constructor; [|exact Hy].
      unfold key_le. lia.
Qed.

Lemma sorted_strongly_sorted l : StronglySorted (key_le key) (sorted key l).
Proof.
  induction l as [|x l IH]; cbn; [constructor|].
  by apply insert_by_strongly_sorted.
Qed.

Lemma strongly_sorted_lookup l i j a b :
  StronglySorted (key_le key) l → (i < j)%nat →
  l !! i = Some a → l !! j = Some b → key a ≤ key b.
Proof.
  intros Hs. revert i j. induction Hs as [|y l Hs IH Hy]; intros i j Hij Hi Hj.
  - done.
  - destruct j as [|j]; [lia|]. cbn in Hj. destruct i as [|i]; cbn in Hi.
    + injection Hi as <-. rewrite Forall_forall in Hy. apply Hy.
      by eapply list_elem_of_lookup_2.
    + eapply (IH i j); [lia|done..].
Qed.

Lemma sorted_lookup_le l i j a b :
  (i < j)%nat → sorted key l !! i = Some a → sorted key l !! j = Some b →
  key a ≤ key b.
Proof. apply strongly_sorted_lookup, sorted_strongly_sorted. Qed.

(** Stability: records of equal key keep their input order. *)
Lemma insert_by_filter k x l :
  filter (λ y, key y = k) (insert_by key x l)
  = filter (λ y, key y = k) (x :: l).
Proof.
  induction l as [|y l IH]; [done|]. cbn [insert_by]. case_decide as Hxy; [done|].
  rewrite filter_cons, IH, !filter_cons.
  destruct (decide (key x = k)), (decide (key y = k)); try done. lia.
Qed.

Lemma sorted_stable k l :
  filter (λ y, key y = k) (sorted key l) = filter (λ y, key y = k) l.
Proof.
  induction l as [|x l IH]; [done|]. cbn. fold (sorted key l).
  by rewrite insert_by_filter, !filter_cons, IH.
Qed.

End Sorted.

(** ** The batch of new timestamps *)

Lemma loop_offset_spec args p m :
  loop_offset args (0 + Z.of_nat p) m
  = spec_offset_steps (use_like_index_offset args) p (Match.sc_index m).
Proof. unfold loop_offset, spec_offset_steps. destruct use_like_index_offset; lia. Qed.

Lemma spec_new_timestamp_microsecond args anchor p r :
  microsecond (spec_new_timestamp args anchor p r)
  = microsecond (ensure_millis_precision anchor).
Proof.
  unfold spec_new_timestamp. rewrite <- Z.mul_assoc.
  replace (spec_offset_steps (use_like_index_offset args) p r
           * (step_seconds args * US_PER_SECOND))
    with (spec_offset_steps (use_like_index_offset args) p r
          * step_seconds args * US_PER_SECOND) by lia.
  apply microsecond_minus_seconds.
Qed.

(** The second application of the fix, line 350, changes nothing. *)
Lemma ensure_millis_precision_spec_new args anchor p r :
  ensure_millis_precision (spec_new_timestamp args anchor p r)
  = spec_new_timestamp args anchor p r.
Proof.
  apply ensure_millis_precision_fixed. rewrite spec_new_timestamp_microsecond.
  apply ensure_millis_precision_nonzero.
Qed.

Lemma batch_in_range_lookup args anchor matched :
  batch_in_range args anchor matched
  ↔ ∀ p m, sorted Match.sc_index matched !! p = Some m →
           dt_valid (spec_new_timestamp args anchor p (Match.sc_index m)).
Proof.
  unfold batch_in_range. rewrite Forall_lookup. split.
  - intros Hall p m Hp. apply (Hall p). by rewrite list_lookup_imap, Hp.
  - intros Hall p t. rewrite list_lookup_imap.
    destruct (sorted Match.sc_index matched !! p) as [m|] eqn:Hp; [|done].
    cbn. intros [= <-]. by apply Hall.
Qed.

Lemma assign_created_at_Ok args anchor matched planned :
  assign_created_at args anchor matched = Ok planned →
  length planned = length matched
  ∧ ∀ p m, sorted Match.sc_index matched !! p = Some m →
      dt_valid (spec_new_timestamp args anchor p (Match.sc_index m))
      ∧ planned !! p
        = Some (set_new_created_at m
                  (spec_new_timestamp args anchor p (Match.sc_index m))).
Proof.
  unfold assign_created_at. intros Hok.
  destruct (assign_from_Ok _ _ _ _ _ Hok) as [Hlen Hnth].
  split; [by rewrite Hlen, sorted_length|].
  intros p m Hp. specialize (Hnth p m Hp). cbn zeta in Hnth.
  rewrite loop_offset_spec in Hnth. fold (spec_new_timestamp args anchor p (Match.sc_index m)) in Hnth.
  by rewrite ensure_millis_precision_spec_new in Hnth.
Qed.

Lemma assign_created_at_total args anchor matched :
  dt_valid anchor → batch_in_range args anchor matched →
  ∃ planned, assign_created_at args anchor matched = Ok planned.
Proof.
  intros Ha Hr. unfold assign_created_at. apply assign_from_total.
  - by apply ensure_millis_precision_valid.
  - intros p m Hp. rewrite loop_offset_spec.
    by apply (proj1 (batch_in_range_lookup _ _ _) Hr).
Qed.

(** Outside the range of [datetime] the loop stops with an
    [OverflowError]: nothing is assigned. *)
Lemma assign_created_at_overflow args anchor matched :
  ¬ batch_in_range args anchor matched →
  ∃ e, assign_created_at args anchor matched = Raise e.
Proof.
  intros Hn. destruct (assign_created_at args anchor matched) as [planned|e] eqn:Hp;
    [|by eexists].
  exfalso. apply Hn, batch_in_range_lookup. intros p m Hs.
  by destruct (proj2 (assign_created_at_Ok _ _ _ _ Hp) p m Hs).
Qed.

Lemma planned_lookup args anchor matched planned p a :
  assign_created_at args anchor matched = Ok planned →
  planned !! p = Some a →
  ∃ m, sorted Match.sc_index matched !! p = Some m
       ∧ a = set_new_created_at m
               (spec_new_timestamp args anchor p (Match.sc_index m)).
Proof.
  intros Hok Hp. destruct (assign_created_at_Ok _ _ _ _ Hok) as [Hlen Hnth].
  destruct (lookup_lt_is_Some_2 (sorted Match.sc_index matched) p) as [m Hm].
  { rewrite sorted_length, <- Hlen. by eapply lookup_lt_Some. }
  exists m. split; [done|]. destruct (Hnth p m Hm) as [_ Hpl]. congruence.
Qed.

Lemma planned_rank_order args anchor matched planned p q a b :
  assign_created_at args anchor matched = Ok planned →
  planned !! p = Some a → planned !! q = Some b →
  Match.sc_index a < Match.sc_index b → (p < q)%nat.
Proof.
  intros Hok Hp Hq Hab.
  destruct (planned_lookup _ _ _ _ _ _ Hok Hp) as (ma & Hma & ->).
  destruct (planned_lookup _ _ _ _ _ _ Hok Hq) as (mb & Hmb & ->).
  cbn in Hab. destruct (decide (p < q)%nat) as [|Hge]; [done|]. exfalso.
  destruct (decide (p = q)) as [->|Hne]; [rewrite Hma in Hmb; injection Hmb as ->; lia|].
  assert (Match.sc_index mb ≤ Match.sc_index ma); [|lia].
  eapply (sorted_lookup_le Match.sc_index matched q p); [lia|done..].
Qed.

(** ** Claims on the assigned timestamps *)

(** C1. For every batch of matched records whose timestamps stay in the
    range of [datetime], the loop of [main] succeeds, its result lists
    the records sorted ascending by [sc_index], and the record at sorted
    position [p] with rank [r] is assigned
    [ensure_millis_precision anchor - offset_steps * step_seconds]
    seconds, where [offset_steps = p] without [--use-like-index-offset]
    (dense) and [offset_steps = r - 1] with it (rankGap). *)
Theorem assigned_timestamp_formula args anchor matched :
  dt_valid anchor → batch_in_range args anchor matched →
  ∃ planned,
    assign_created_at args anchor matched = Ok planned
    ∧ length planned = length matched
    ∧ sorted Match.sc_index matched ≡ₚ matched
    ∧ StronglySorted (key_le Match.sc_index) (sorted Match.sc_index matched)
    ∧ ∀ p m, sorted Match.sc_index matched !! p = Some m →
        let r := Match.sc_index m in
        let offset_steps := if use_like_index_offset args then r - 1 else Z.of_nat p in
        let t := ensure_millis_precision anchor
                 - offset_steps * step_seconds args * US_PER_SECOND in
        ∃ m', planned !! p = Some m'
              ∧ m' = set_new_created_at m t
              ∧ Match.sc_index m' = r
              ∧ Match.new_created_at m' = Some t
              ∧ DjmdContent.created_at (Match.row m') = Some t.
Proof.
  intros Ha Hr. destruct (assign_created_at_total _ _ _ Ha Hr) as [planned Hok].
  exists planned. destruct (assign_created_at_Ok _ _ _ _ Hok) as [Hlen Hnth].
  split; [done|]. split; [done|]. split; [apply sorted_perm|].
  split; [apply sorted_strongly_sorted|].
  intros p m Hp. cbn zeta. destruct (Hnth p m Hp) as [_ Hpl].
  eexists. split; [exact Hpl|]. done.
Qed.

Lemma assigned_timestamp_formula_witness :
  ∃ planned,
    assign_created_at ex_rank_gap ex_anchor (fst ex_match) = Ok planned
    ∧ length planned = length (fst ex_match)
    ∧ sorted Match.sc_index (fst ex_match) ≡ₚ fst ex_match
    ∧ StronglySorted (key_le Match.sc_index) (sorted Match.sc_index (fst ex_match))
    ∧ ∀ p m, sorted Match.sc_index (fst ex_match) !! p = Some m →
        let r := Match.sc_index m in
        let offset_steps :=
          if use_like_index_offset ex_rank_gap then r - 1 else Z.of_nat p in
        let t := ensure_millis_precision ex_anchor
                 - offset_steps * step_seconds ex_rank_gap * US_PER_SECOND in
        ∃ m', planned !! p = Some m'
              ∧ m' = set_new_created_at m t
              ∧ Match.sc_index m' = r
              ∧ Match.new_created_at m' = Some t
              ∧ DjmdContent.created_at (Match.row m') = Some t.
Proof.
  apply (assigned_timestamp_formula ex_rank_gap ex_anchor (fst ex_match)).
  - vm_compute. split; [discriminate|reflexivity].
  - apply (bool_decide_unpack _). vm_compute. exact I.
Defined.

(** C2 (amended). For every batch with [step_seconds >= 1] whose
    timestamps stay in the range of [datetime]: with
    [--use-like-index-offset] (rankGap) every record of rank 1 is
    assigned exactly [ensure_millis_precision anchor]; without it
    (dense) the record at sorted position [p] is assigned
    [ensure_millis_precision anchor] minus [p * step_seconds] seconds,
    so position 0 gets [ensure_millis_precision anchor], and a record of
    rank 1 is at position 0 when all ranks are at least 1 and no other
    matched record has rank 1; in both modes, of two matched records with
    different ranks the one with the larger rank is assigned the strictly
    earlier timestamp. *)
Theorem rank_order_of_timestamps args anchor matched :
  1 ≤ step_seconds args → dt_valid anchor → batch_in_range args anchor matched →
  ∃ planned,
    assign_created_at args anchor matched = Ok planned
    ∧ (use_like_index_offset args = true →
       ∀ p m, planned !! p = Some m → Match.sc_index m = 1 →
              Match.new_created_at m = Some (ensure_millis_precision anchor))
    ∧ (use_like_index_offset args = false →
       ∀ p m, planned !! p = Some m →
              Match.new_created_at m
              = Some (ensure_millis_precision anchor
                      - Z.of_nat p * step_seconds args * US_PER_SECOND))
    ∧ (use_like_index_offset args = false →
       (∀ m, m ∈ matched → 1 ≤ Match.sc_index m) →
       ∀ p m, planned !! p = Some m → Match.sc_index m = 1 →
              (∀ q m', planned !! q = Some m' → Match.sc_index m' = 1 → q = p) →
              p = 0%nat
              ∧ Match.new_created_at m = Some (ensure_millis_precision anchor))
    ∧ (∀ p q a b ta tb,
         planned !! p = Some a → planned !! q = Some b →
         Match.sc_index a < Match.sc_index b →
         Match.new_created_at a = Some ta → Match.new_created_at b = Some tb →
         tb < ta).
Proof.
  intros Hstep Ha Hr. destruct (assign_created_at_total _ _ _ Ha Hr) as [planned Hok].
  exists planned. split; [done|].
  assert (∀ p m, planned !! p = Some m →
            Match.new_created_at m
            = Some (spec_new_timestamp args anchor p (Match.sc_index m))) as Hnew.
  { intros p m Hp. by destruct (planned_lookup _ _ _ _ _ _ Hok Hp) as (m0 & _ & ->). }
  assert (use_like_index_offset args = false →
          ∀ p m, planned !! p = Some m →
            Match.new_created_at m
            = Some (ensure_millis_precision anchor
                    - Z.of_nat p * step_seconds args * US_PER_SECOND)) as Hdense.
  { intros Hmode p m Hp. rewrite (Hnew p m Hp).
    unfold spec_new_timestamp, spec_offset_steps. by rewrite Hmode. }
  split; [|split; [|split]].
  - intros Hmode p m Hp Hone. rewrite (Hnew p m Hp).
    unfold spec_new_timestamp, spec_offset_steps. rewrite Hmode, Hone. f_equal. lia.
  - exact Hdense.
  - intros Hmode Hranks p m Hp Hone Huniq.
    assert (p = 0%nat) as ->.
    { destruct p as [|p]; [done|]. exfalso.
      destruct (lookup_lt_is_Some_2 planned 0) as [m0 Hm0].
      { apply lookup_lt_Some in Hp. lia. }
      assert (Match.sc_index m0 ≤ Match.sc_index m) as Hle.
      { destruct (planned_lookup _ _ _ _ _ _ Hok Hm0) as (s0 & Hs0 & ->).
        destruct (planned_lookup _ _ _ _ _ _ Hok Hp) as (s & Hs & ->). cbn.
        eapply (sorted_lookup_le Match.sc_index matched 0 (S p)); [lia|done..]. }
      assert (1 ≤ Match.sc_index m0) as Hge.
      { destruct (planned_lookup _ _ _ _ _ _ Hok Hm0) as (s0 & Hs0 & ->). cbn.
        apply Hranks. rewrite <- (sorted_perm Match.sc_index matched).
        by eapply list_elem_of_lookup_2. }
      specialize (Huniq 0%nat m0 Hm0 ltac:(lia)). done. }
    split; [done|]. rewrite (Hdense Hmode 0%nat m Hp). f_equal. lia.
  - intros p q a b ta tb Hp Hq Hab Hta Htb.
    rewrite (Hnew p a Hp) in Hta. rewrite (Hnew q b Hq) in Htb.
    injection Hta as <-. injection Htb as <-.
    pose proof (planned_rank_order _ _ _ _ _ _ _ _ Hok Hp Hq Hab) as Hpq.
    unfold spec_new_timestamp, spec_offset_steps, US_PER_SECOND.
    destruct (use_like_index_offset args); nia.
Qed.

Lemma rank_order_of_timestamps_witness :
  ∃ planned,
    assign_created_at ex_dense ex_anchor (fst ex_match) = Ok planned
    ∧ (use_like_index_offset ex_dense = true →
       ∀ p m, planned !! p = Some m → Match.sc_index m = 1 →
              Match.new_created_at m = Some (ensure_millis_precision ex_anchor))
    ∧ (use_like_index_offset ex_dense = false →
       ∀ p m, planned !! p = Some m →
              Match.new_created_at m
              = Some (ensure_millis_precision ex_anchor
                      - Z.of_nat p * step_seconds ex_dense * US_PER_SECOND))
    ∧ (use_like_index_offset ex_dense = false →
       (∀ m, m ∈ fst ex_match → 1 ≤ Match.sc_index m) →
       ∀ p m, planned !! p = Some m → Match.sc_index m = 1 →
              (∀ q m', planned !! q = Some m' → Match.sc_index m' = 1 → q = p) →
              p = 0%nat
              ∧ Match.new_created_at m = Some (ensure_millis_precision ex_anchor))
    ∧ (∀ p q a b ta tb,
         planned !! p = Some a → planned !! q = Some b →
         Match.sc_index a < Match.sc_index b →
         Match.new_created_at a = Some ta → Match.new_created_at b = Some tb →
         tb < ta).
Proof.
  apply (rank_order_of_timestamps ex_dense ex_anchor (fst ex_match)).
  - vm_compute. discriminate.
  - vm_compute. split; [discriminate|reflexivity].
  - apply (bool_decide_unpack _). vm_compute. exact I.
Defined.

(** C2, as stated, fails in dense mode: two rows matched to the rank-1
    like; the second one has rank 1 and is assigned one step less than
    [ensure_millis_precision anchor]. *)
Lemma rank1_duplicate_dense_counterexample :
  ∃ planned m,
    (Match.sc_index <$> fst dup_match) = [1; 1]
    ∧ 1 ≤ step_seconds ex_dense
    ∧ assign_created_at ex_dense ex_anchor (fst dup_match) = Ok planned
    ∧ planned !! 1%nat = Some m
    ∧ Match.sc_index m = 1
    ∧ Match.new_created_at m
      = Some (ensure_millis_precision ex_anchor - 1 * US_PER_SECOND)
    ∧ Match.new_created_at m ≠ Some (ensure_millis_precision ex_anchor).
Proof.
  eexists. eexists. split; [vm_compute; reflexivity|].
  split; [vm_compute; discriminate|].
  split; [vm_compute; reflexivity|].
  split; [vm_compute; reflexivity|].
  split; [vm_compute; reflexivity|].
  split; [vm_compute; reflexivity|].
  vm_compute. discriminate.
Qed.

(** C10. [ensure_millis_precision] always returns a non-zero microsecond
    field, 900000 for a whole-second argument, and is idempotent; every
    record the loop of [main] assigns carries, in [new_created_at] and
    in the row's [created_at], a timestamp whose microsecond field is
    non-zero and equal to that of the fixed anchor (the second fix of
    line 350 changes nothing); and the loop does assign them whenever
    the timestamps stay in the range of [datetime]. *)
Theorem assigned_timestamps_have_subsecond args anchor matched :
  (∀ dt, microsecond (ensure_millis_precision dt) ≠ 0
         ∧ (microsecond dt = 0 → microsecond (ensure_millis_precision dt) = 900000)
         ∧ ensure_millis_precision (ensure_millis_precision dt)
           = ensure_millis_precision dt)
  ∧ (∀ planned, assign_created_at args anchor matched = Ok planned →
       length planned = length matched
       ∧ ∀ m, m ∈ planned →
           ∃ t, Match.new_created_at m = Some t
                ∧ DjmdContent.created_at (Match.row m) = Some t
                ∧ microsecond t ≠ 0
                ∧ microsecond t = microsecond (ensure_millis_precision anchor)
                ∧ (microsecond anchor = 0 → microsecond t = 900000))
  ∧ (dt_valid anchor → batch_in_range args anchor matched →
     ∃ planned, assign_created_at args anchor matched = Ok planned).
Proof.
  split; [|split].
  - intros dt. split; [apply ensure_millis_precision_nonzero|]. split.
    + intros Hz. by destruct (ensure_millis_precision_whole dt Hz).
    + apply ensure_millis_precision_idem.
  - intros planned Hok. split; [by destruct (assign_created_at_Ok _ _ _ _ Hok)|].
    intros m Hm. apply list_elem_of_lookup in Hm as [p Hp].
    destruct (planned_lookup _ _ _ _ _ _ Hok Hp) as (m0 & _ & ->).
    eexists. split; [done|]. split; [done|].
    rewrite spec_new_timestamp_microsecond.
    split; [apply ensure_millis_precision_nonzero|]. split; [done|].
    intros Hz. by destruct (ensure_millis_precision_whole anchor Hz).
  - apply assign_created_at_total.
Qed.

Lemma assigned_timestamps_have_subsecond_witness :
  (∃ planned, assign_created_at ex_dense ex_anchor (fst ex_match) = Ok planned)
  ∧ microsecond (ensure_millis_precision ex_anchor) = 900000.
Proof.
  destruct (assigned_timestamps_have_subsecond ex_dense ex_anchor (fst ex_match))
    as (Hfix & _ & Htotal).
  split.
  - apply Htotal.
    + vm_compute. split; [discriminate|reflexivity].
    + apply (bool_decide_unpack _). vm_compute. exact I.
  - apply (Hfix ex_anchor). vm_compute. reflexivity.
Defined.

(** ** The end-to-end example *)

(** C3. Reference list [(1,A),(2,B),(3,C),(4,D)], rows titled
    b, A, d, Z, anchor 2024-01-01T00:00:00, step one second: the rows
    match B (rank 2, normalized), A (rank 1, exact) and D (rank 4,
    normalized), Z is unmatched; dense mode assigns A, B, D the instants
    2024-01-01T00:00:00.9, 2023-12-31T23:59:59.9, 2023-12-31T23:59:58.9
    and rankGap mode assigns D 2023-12-31T23:59:57.9 instead. *)
Theorem end_to_end_example :
  ((λ e, (LikeEntry.index e, LikeEntry.title e)) <$> ex_likes)
    = [(1, lit "A"); (2, lit "B"); (3, lit "C"); (4, lit "D")]
  ∧ (DjmdContent.Title <$> ex_rows)
    = [Some (lit "b"); Some (lit "A"); Some (lit "d"); Some (lit "Z")]
  ∧ mk_datetime 2024 1 1 0 0 0 0 = Ok ex_anchor
  ∧ step_seconds ex_dense = 1 ∧ step_seconds ex_rank_gap = 1
  ∧ ((λ m, (Match.local_title m, Match.sc_title m, Match.sc_index m,
            Match.match_mode m)) <$> fst ex_match)
    = [(lit "b", lit "B", 2, lit "normalized");
       (lit "A", lit "A", 1, lit "exact");
       (lit "d", lit "D", 4, lit "normalized")]
  ∧ ((λ x, (Unmatched.local_title x, Unmatched.reason x)) <$> snd ex_match)
    = [(lit "Z", lit "not-found-in-likes")]
  ∧ (fmap (M := list) (λ m, (Match.sc_title m, Match.new_created_at m))
       <$> assign_created_at ex_dense ex_anchor (fst ex_match))
    = Ok [(lit "A", result_to_option (mk_datetime 2024 1 1 0 0 0 900000));
          (lit "B", result_to_option (mk_datetime 2023 12 31 23 59 59 900000));
          (lit "D", result_to_option (mk_datetime 2023 12 31 23 59 58 900000))]
  ∧ (fmap (M := list) (λ m, format_dt (Match.new_created_at m))
       <$> assign_created_at ex_dense ex_anchor (fst ex_match))
    = Ok [lit "2024-01-01 00:00:00.900000"; lit "2023-12-31 23:59:59.900000";
          lit "2023-12-31 23:59:58.900000"]
  ∧ (fmap (M := list) (λ m, (Match.sc_title m, Match.new_created_at m))
       <$> assign_created_at ex_rank_gap ex_anchor (fst ex_match))
    = Ok [(lit "A", result_to_option (mk_datetime 2024 1 1 0 0 0 900000));
          (lit "B", result_to_option (mk_datetime 2023 12 31 23 59 59 900000));
          (lit "D", result_to_option (mk_datetime 2023 12 31 23 59 57 900000))]
  ∧ (fmap (M := list) (λ m, format_dt (Match.new_created_at m))
       <$> assign_created_at ex_rank_gap ex_anchor (fst ex_match))
    = Ok [lit "2024-01-01 00:00:00.900000"; lit "2023-12-31 23:59:59.900000";
          lit "2023-12-31 23:59:57.900000"].
Proof. split_and!; vm_compute; reflexivity. Qed.

(** ** The likes index *)

Section Index.
Context `{UnicodeData}.

Lemma lookup_setdefault {V} (k k' : str) (v : V) (d : gmap str V) :
  setdefault k v d !! k'
  = match d !! k' with
    | Some x => Some x
    | None => if decide (k = k') then Some v else None
    end.
Proof.
  unfold setdefault. destruct (d !! k) as [x|] eqn:Hk.
  - destruct (d !! k') as [x'|] eqn:Hk'; [done|]. case_decide; [congruence|done].
  - destruct (decide (k = k')) as [<-|Hne].
    + by rewrite lookup_insert_eq, Hk.
    + rewrite lookup_insert_ne by done. by destruct (d !! k').
Qed.

Lemma index_fold_exact likes by_exact by_norm t :
  (fold_left index_step likes (by_exact, by_norm)).1 !! t
  = match by_exact !! t with
    | Some e => Some e
    | None => head (filter (λ e, LikeEntry.title e = t) likes)
    end.
Proof.
  revert by_exact by_norm. induction likes as [|item likes IH]; intros by_exact by_norm.
  - cbn. by destruct (by_exact !! t).
  - cbn [fold_left]. unfold index_step at 2.
    destruct (normalize_title (LikeEntry.title item)); rewrite IH, lookup_setdefault;
      rewrite filter_cons; destruct (by_exact !! t); try done;
      destruct (decide (LikeEntry.title item = t)); done.
Qed.

Lemma index_fold_norm likes by_exact by_norm k :
  (fold_left index_step likes (by_exact, by_norm)).2 !! k
  = match by_norm !! k with
    | Some e => Some e
    | None =>
        if decide (k = []) then None
        else head (filter (λ e, normalize_title (LikeEntry.title e) = k) likes)
    end.
Proof.
  revert by_exact by_norm. induction likes as [|item likes IH]; intros by_exact by_norm.
  - cbn. destruct (by_norm !! k); [done|]. by case_decide.
  - cbn [fold_left]. unfold index_step at 2.
    destruct (normalize_title (LikeEntry.title item)) as [|c norm] eqn:Hn.
    + rewrite IH, filter_cons. destruct (by_norm !! k); [done|].
      destruct (decide (k = [])) as [->|Hk]; [done|].
      rewrite decide_False by congruence. done.
    + rewrite IH, lookup_setdefault, filter_cons, Hn.
      destruct (by_norm !! k) as [e|]; [done|].
      destruct (decide (c :: norm = k)) as [<-|Hne]; [|done].
      by rewrite decide_False.
Qed.

Lemma head_filter_app {A} (P : A → Prop) `{∀ x, Decision (P x)} (l l' : list A) x :
  head (filter P l) = Some x → head (filter P (l ++ l')) = Some x.
Proof. rewrite filter_app. by destruct (filter P l). Qed.

Lemma head_filter_sorted_min {A} (P : A → Prop) `{∀ x, Decision (P x)}
  (key : A → Z) (l : list A) x y :
  StronglySorted (λ a b, key a < key b) l →
  head (filter P l) = Some x → y ∈ l → P y → key x ≤ key y.
Proof.
  induction 1 as [|z l Hs IH Hz]; [done|]. rewrite filter_cons.
  intros Hx Hy Py. apply elem_of_cons in Hy as [->|Hy].
  - rewrite decide_True in Hx by done. injection Hx as <-. lia.
  - destruct (decide (P z)).
    + injection Hx as <-. rewrite Forall_forall in Hz. specialize (Hz y Hy). lia.
    + by apply IH.
Qed.

(** C6. For every sequence of likes, [by_exact] maps a title to the
    first entry of the sequence bearing exactly that title, [by_norm]
    maps a non-empty key to the first entry whose normalised title is
    that key and holds no empty key; entries appended later never change
    a binding that exists; and in a sequence of strictly ascending
    [index] the bound entry is the one of lowest rank. *)
Theorem build_likes_maps_first_wins likes :
  (∀ t, (build_likes_maps likes).1 !! t
        = head (filter (λ e, LikeEntry.title e = t) likes))
  ∧ (∀ k, (build_likes_maps likes).2 !! k
          = if decide (k = []) then None
            else head (filter (λ e, normalize_title (LikeEntry.title e) = k) likes))
  ∧ (∀ later t e, (build_likes_maps likes).1 !! t = Some e →
                  (build_likes_maps (likes ++ later)).1 !! t = Some e)
  ∧ (∀ later k e, (build_likes_maps likes).2 !! k = Some e →
                  (build_likes_maps (likes ++ later)).2 !! k = Some e)
  ∧ (StronglySorted (λ a b, LikeEntry.index a < LikeEntry.index b) likes →
     (∀ t e e', (build_likes_maps likes).1 !! t = Some e →
                e' ∈ likes → LikeEntry.title e' = t →
                e ∈ likes ∧ LikeEntry.title e = t
                ∧ LikeEntry.index e ≤ LikeEntry.index e')
     ∧ (∀ k e e', (build_likes_maps likes).2 !! k = Some e →
                  e' ∈ likes → normalize_title (LikeEntry.title e') = k →
                  e ∈ likes ∧ normalize_title (LikeEntry.title e) = k
                  ∧ LikeEntry.index e ≤ LikeEntry.index e')).
Proof.
  assert (∀ l t, (build_likes_maps l).1 !! t
                 = head (filter (λ e, LikeEntry.title e = t) l)) as Hexact.
  { intros l t. unfold build_likes_maps. by rewrite index_fold_exact, lookup_empty. }
  assert (∀ l k, (build_likes_maps l).2 !! k
                 = if decide (k = []) then None
                   else head (filter (λ e, normalize_title (LikeEntry.title e) = k) l))
    as Hnorm.
  { intros l k. unfold build_likes_maps. by rewrite index_fold_norm, lookup_empty. }
  split_and!.
  - apply Hexact.
  - apply Hnorm.
  - intros later t e. rewrite !Hexact. apply head_filter_app.
  - intros later k e. rewrite !Hnorm. case_decide; [done|]. apply head_filter_app.
  - intros Hsorted. split.
    + intros t e e' He He' Ht. rewrite Hexact in He.
      assert (e ∈ filter (λ e, LikeEntry.title e = t) likes) as Hin.
      { destruct (filter _ likes); [done|]. injection He as ->. apply elem_of_cons. by left. }
      apply list_elem_of_filter in Hin as [Hte Hel]. split_and!; [done..|].
      by eapply (head_filter_sorted_min _ LikeEntry.index likes e e' Hsorted He).
    + intros k e e' He He' Hk. rewrite Hnorm in He. case_decide; [done|].
      assert (e ∈ filter (λ e, normalize_title (LikeEntry.title e) = k) likes) as Hin.
      { destruct (filter _ likes); [done|]. injection He as ->. apply elem_of_cons. by left. }
      apply list_elem_of_filter in Hin as [Hte Hel]. split_and!; [done..|].
      by eapply (head_filter_sorted_min _ LikeEntry.index likes e e' Hsorted He).
Qed.

End Index.

Lemma build_likes_maps_first_wins_witness :
  StronglySorted (λ a b, LikeEntry.index a < LikeEntry.index b) ex_likes
  ∧ (build_likes_maps ex_likes).1 !! lit "B" = ex_likes !! 1%nat
  ∧ (∀ t e e', (build_likes_maps ex_likes).1 !! t = Some e →
               e' ∈ ex_likes → LikeEntry.title e' = t →
               e ∈ ex_likes ∧ LikeEntry.title e = t
               ∧ LikeEntry.index e ≤ LikeEntry.index e').
Proof.
  destruct (build_likes_maps_first_wins ex_likes) as (Hexact & _ & _ & _ & Hmin).
  assert (StronglySorted (λ a b, LikeEntry.index a < LikeEntry.index b) ex_likes)
    as Hsorted by (repeat constructor).
  split; [exact Hsorted|]. split; [rewrite Hexact; reflexivity|].
  apply (Hmin Hsorted).
Defined.

(** ** The row matcher *)

Section Matcher.
Context `{UnicodeData}.
Implicit Types (by_exact by_norm : gmap str LikeEntry.t) (row : DjmdContent.t).

Lemma match_row_outcome by_exact by_norm matched unmatched row :
  match_row by_exact by_norm (matched, unmatched) row
  = match row_outcome by_exact by_norm row with
    | inl m => (matched ++ [m], unmatched)
    | inr x => (matched, unmatched ++ [x])
    end.
Proof.
  unfold match_row, row_outcome, candidates_of.
  by destruct (lookup_candidates _ _ _) as [[item mode]|].
Qed.

Lemma match_fold by_exact by_norm rows matched unmatched :
  fold_left (match_row by_exact by_norm) rows (matched, unmatched)
  = (matched ++ lefts (row_outcome by_exact by_norm <$> rows),
     unmatched ++ rights (row_outcome by_exact by_norm <$> rows)).
Proof.
  revert matched unmatched. induction rows as [|row rows IH]; intros matched unmatched.
  - cbn. by rewrite !app_nil_r.
  - cbn [fold_left]. rewrite match_row_outcome, fmap_cons. cbn [lefts rights].
    destruct (row_outcome by_exact by_norm row) as [m|x]; rewrite IH; cbn;
      by rewrite <- ?app_assoc.
Qed.

Lemma match_rows_outcomes by_exact by_norm rows :
  match_rows_to_likes rows by_exact by_norm
  = (lefts (row_outcome by_exact by_norm <$> rows),
     rights (row_outcome by_exact by_norm <$> rows)).
Proof. unfold match_rows_to_likes. by rewrite match_fold. Qed.

Lemma lefts_rights_length {A B} (l : list (A + B)) :
  (length (lefts l) + length (rights l) = length l)%nat.
Proof. induction l as [|[a|b] l IH]; cbn; lia. Qed.

Lemma scan_exact_head by_exact cs :
  scan_exact by_exact cs = head (omap (λ c, by_exact !! c) cs).
Proof. induction cs as [|c cs IH]; [done|]. cbn. by destruct (by_exact !! c). Qed.

Lemma scan_norm_head by_norm cs :
  scan_norm by_norm cs = head (omap (norm_lookup by_norm) cs).
Proof.
  induction cs as [|c cs IH]; [done|]. cbn. unfold norm_lookup at 1.
  destruct (normalize_title c) as [|d norm]; [done|].
  by destruct (by_norm !! (d :: norm)).
Qed.

Lemma scan_exact_None by_exact cs :
  scan_exact by_exact cs = None ↔ ∀ c, c ∈ cs → by_exact !! c = None.
Proof.
  induction cs as [|c cs IH]; cbn.
  - split; [|done]. intros _ c Hc. by apply elem_of_nil in Hc.
  - destruct (by_exact !! c) as [item|] eqn:Hc.
    + split; [done|]. intros Hall. specialize (Hall c). rewrite Hc in Hall.
      apply Hall. by left.
    + rewrite IH. split.
      * intros Hall c' Hc'. apply elem_of_cons in Hc' as [->|Hc']; [done|by apply Hall].
      * intros Hall c' Hc'. apply Hall. by right.
Qed.

Lemma scan_norm_None by_norm cs :
  scan_norm by_norm cs = None ↔ ∀ c, c ∈ cs → norm_lookup by_norm c = None.
Proof.
  rewrite scan_norm_head. induction cs as [|c cs IH]; cbn.
  - split; [|done]. intros _ c Hc. by apply elem_of_nil in Hc.
  - destruct (norm_lookup by_norm c) as [item|] eqn:Hc.
    + split; [done|]. intros Hall. specialize (Hall c). rewrite Hc in Hall.
      apply Hall. by left.
    + rewrite IH. split.
      * intros Hall c' Hc'. apply elem_of_cons in Hc' as [->|Hc']; [done|by apply Hall].
      * intros Hall c' Hc'. apply Hall. by right.
Qed.

Lemma norm_lookup_unguarded by_norm c :
  by_norm !! ([] : str) = None → norm_lookup by_norm c = by_norm !! normalize_title c.
Proof. intros Hempty. unfold norm_lookup. by destruct (normalize_title c). Qed.

Lemma norm_lookup_miss by_norm c :
  by_norm !! normalize_title c = None → norm_lookup by_norm c = None.
Proof. unfold norm_lookup. by destruct (normalize_title c). Qed.

Lemma row_outcome_unmatched by_exact by_norm row x :
  row_outcome by_exact by_norm row = inr x
  ↔ x = Unmatched.mk (py_str (DjmdContent.FolderPath row)) (find_local_title row)
                     (lit "not-found-in-likes")
    ∧ ∀ c, c ∈ candidates_of row →
           by_exact !! c = None ∧ norm_lookup by_norm c = None.
Proof.
  unfold row_outcome, lookup_candidates.
  destruct (scan_exact by_exact (candidates_of row)) as [item|] eqn:He.
  - split; [done|]. intros [_ Hall].
    assert (scan_exact by_exact (candidates_of row) = None) as Hnone; [|congruence].
    apply scan_exact_None. intros c Hc. by apply Hall.
  - destruct (scan_norm by_norm (candidates_of row)) as [item|] eqn:Hn.
    + split; [done|]. intros [_ Hall].
      assert (scan_norm by_norm (candidates_of row) = None) as Hnone; [|congruence].
      apply scan_norm_None. intros c Hc. by apply Hall.
    + rewrite scan_exact_None in He. rewrite scan_norm_None in Hn. split.
      * intros [= <-]. split; [done|]. intros c Hc. split; [by apply He|by apply Hn].
      * by intros [-> _].
Qed.

(** C4 (amended). For every sequence of rows and every pair of
    dictionaries, [match_rows_to_likes] appends exactly one outcome per
    row, a [Match] or an [Unmatched], in row order: the two result lists
    are the two sides of the row-wise outcomes and their lengths add up
    to the number of rows; a [Match] carries its row; and a row whose
    candidates hit neither dictionary yields an [Unmatched] whose reason
    is ["not-found-in-likes"], the only way a row is unmatched. *)
Theorem match_rows_partition rows by_exact by_norm :
  let outcomes := row_outcome by_exact by_norm <$> rows in
  match_rows_to_likes rows by_exact by_norm = (lefts outcomes, rights outcomes)
  ∧ length outcomes = length rows
  ∧ (length (match_rows_to_likes rows by_exact by_norm).1
     + length (match_rows_to_likes rows by_exact by_norm).2 = length rows)%nat
  ∧ (∀ i row, rows !! i = Some row →
              outcomes !! i = Some (row_outcome by_exact by_norm row))
  ∧ (∀ row m, row_outcome by_exact by_norm row = inl m →
              Match.row m = row
              ∧ Match.file_path m = py_str (DjmdContent.FolderPath row))
  ∧ (∀ row,
       (∀ c, c ∈ candidates_of row →
             by_exact !! c = None ∧ by_norm !! normalize_title c = None) →
       row_outcome by_exact by_norm row
       = inr (Unmatched.mk (py_str (DjmdContent.FolderPath row))
                           (find_local_title row) (lit "not-found-in-likes")))
  ∧ (∀ row x, row_outcome by_exact by_norm row = inr x →
              Unmatched.reason x = lit "not-found-in-likes"
              ∧ Unmatched.file_path x = py_str (DjmdContent.FolderPath row)
              ∧ ∀ c, c ∈ candidates_of row →
                     by_exact !! c = None ∧ norm_lookup by_norm c = None).
Proof.
  cbn zeta. split_and!.
  - apply match_rows_outcomes.
  - by rewrite length_fmap.
  - rewrite match_rows_outcomes. cbn. by rewrite lefts_rights_length, length_fmap.
  - intros i row Hi. by rewrite list_lookup_fmap, Hi.
  - intros row m. unfold row_outcome.
    destruct (lookup_candidates _ _ _) as [[item mode]|]; [|done]. by intros [= <-].
  - intros row Hmiss. apply row_outcome_unmatched. split; [done|].
    intros c Hc. destruct (Hmiss c Hc) as [He Hn]. split; [done|].
    by apply norm_lookup_miss.
  - intros row x Hx. apply row_outcome_unmatched in Hx as [-> Hall]. done.
Qed.

End Matcher.

Lemma ex_row_Z_misses c :
  c ∈ candidates_of (ex_row "track4.mp3" "Z") →
  (build_likes_maps ex_likes).1 !! c = None
  ∧ (build_likes_maps ex_likes).2 !! normalize_title c = None.
Proof.
  replace (candidates_of (ex_row "track4.mp3" "Z")) with [lit "Z"; lit "track4"]
    by (vm_compute; reflexivity).
  rewrite !elem_of_cons, elem_of_nil. intros [->|[->|[]]]; split; vm_compute; reflexivity.
Qed.

Lemma match_rows_partition_witness :
  row_outcome (build_likes_maps ex_likes).1 (build_likes_maps ex_likes).2
              (ex_row "track4.mp3" "Z")
  = inr (Unmatched.mk (lit "/Music/sc/track4.mp3") (lit "Z")
                      (lit "not-found-in-likes")).
Proof.
  destruct (match_rows_partition ex_rows (build_likes_maps ex_likes).1
              (build_likes_maps ex_likes).2) as (_ & _ & _ & _ & _ & Hmiss & _).
  apply (Hmiss (ex_row "track4.mp3" "Z")). exact ex_row_Z_misses.
Defined.

(** C4, as stated, fails on the reason: the row titled Z hits neither
    dictionary and its [Unmatched] record carries
    ["not-found-in-likes"], not ["not-found"]. *)
Lemma unmatched_reason_counterexample :
  ∃ x, snd ex_match = [x]
       ∧ (∀ c, c ∈ candidates_of (ex_row "track4.mp3" "Z") →
               (build_likes_maps ex_likes).1 !! c = None
               ∧ (build_likes_maps ex_likes).2 !! normalize_title c = None)
       ∧ Unmatched.local_title x = lit "Z"
       ∧ Unmatched.reason x = lit "not-found-in-likes"
       ∧ Unmatched.reason x ≠ lit "not-found".
Proof.
  eexists. split; [vm_compute; reflexivity|]. split; [exact ex_row_Z_misses|].
  split; [vm_compute; reflexivity|]. split; [vm_compute; reflexivity|].
  vm_compute. discriminate.
Qed.

Lemma elem_of_lefts {A B} (l : list (A + B)) a : a ∈ lefts l ↔ inl a ∈ l.
Proof.
  induction l as [|[a'|b] l IH]; cbn.
  - by rewrite !elem_of_nil.
  - rewrite !elem_of_cons, IH. split; intros [Ha|Ha]; try (by right).
    + left. by rewrite Ha.
    + left. by injection Ha.
  - rewrite elem_of_cons, IH. split; [by right|]. by intros [?|?].
Qed.

Section MatcherOrder.
Context `{UnicodeData}.
Implicit Types (by_exact by_norm : gmap str LikeEntry.t) (row : DjmdContent.t).

Lemma candidates_of_cases row :
  candidates_of row
  = if truthy (DjmdContent.Title row)
    then [py_str (DjmdContent.Title row);
          path_stem (py_str (DjmdContent.FolderPath row))]
    else [path_stem (py_str (DjmdContent.FolderPath row));
          path_stem (py_str (DjmdContent.FolderPath row))].
Proof. unfold candidates_of, find_local_title. by destruct (truthy _). Qed.

Lemma lookup_candidates_spec by_exact by_norm row :
  lookup_candidates by_exact by_norm (candidates_of row)
  = lookup_candidates by_exact by_norm (spec_candidates row).
Proof.
  rewrite candidates_of_cases. unfold spec_candidates.
  destruct (truthy _); [done|]. unfold lookup_candidates. cbn.
  destruct (by_exact !! path_stem _); [done|].
  destruct (normalize_title (path_stem _)) as [|d norm]; [done|].
  by destruct (by_norm !! (d :: norm)).
Qed.

Lemma lookup_candidates_exact by_exact by_norm cs c item :
  c ∈ cs → by_exact !! c = Some item →
  ∃ item', scan_exact by_exact cs = Some item'
           ∧ lookup_candidates by_exact by_norm cs = Some (item', lit "exact").
Proof.
  intros Hc Hitem. unfold lookup_candidates.
  destruct (scan_exact by_exact cs) as [item'|] eqn:He; [by eexists|].
  rewrite scan_exact_None in He. specialize (He c Hc). congruence.
Qed.

Lemma match_rows_single by_exact by_norm row :
  match_rows_to_likes [row] by_exact by_norm
  = outcome_lists row (lookup_candidates by_exact by_norm (candidates_of row)).
Proof.
  rewrite match_rows_outcomes. cbn [fmap list_fmap lefts rights].
  unfold row_outcome, outcome_lists, match_of, unmatched_of.
  by destruct (lookup_candidates _ _ _) as [[item mode]|].
Qed.

Lemma row_outcome_row by_exact by_norm row m :
  row_outcome by_exact by_norm row = inl m → Match.row m = row.
Proof.
  unfold row_outcome. destruct (lookup_candidates _ _ _) as [[item mode]|]; [|done].
  by intros [= <-].
Qed.

(** C5. [match_rows_to_likes] treats every row on its own, and on a row
    it does what the scans of the list [[title if present; stem of the
    path]] give: the exact dictionary is scanned over all candidates,
    in order, before the normalised one, whose scan runs only when no
    candidate is an exact key. So a row with some candidate in the
    exact dictionary is matched by [match_rows_to_likes] in mode
    ["exact"], to the entry of the first such candidate, whatever the
    normalised dictionary holds; a [Match] of mode ["normalized"] in its
    result means that no candidate of its row was an exact key; and the
    outcome of a row depends on that row and the two dictionaries
    only. *)
Theorem exact_before_normalized by_exact by_norm :
  (∀ row, lookup_candidates by_exact by_norm (candidates_of row)
          = lookup_candidates by_exact by_norm (spec_candidates row))
  ∧ (∀ cs, scan_exact by_exact cs = head (omap (λ c, by_exact !! c) cs))
  ∧ (∀ cs, scan_norm by_norm cs = head (omap (norm_lookup by_norm) cs))
  ∧ (by_norm !! ([] : str) = None →
     ∀ c, norm_lookup by_norm c = by_norm !! normalize_title c)
  ∧ (∀ cs, lookup_candidates by_exact by_norm cs
           = match scan_exact by_exact cs with
             | Some item => Some (item, lit "exact")
             | None => (λ item, (item, lit "normalized")) <$> scan_norm by_norm cs
             end)
  ∧ (∀ row c item, c ∈ spec_candidates row → by_exact !! c = Some item →
       ∃ m, row_outcome by_exact by_norm row = inl m
            ∧ Match.match_mode m = lit "exact"
            ∧ scan_exact by_exact (spec_candidates row)
              = Some (LikeEntry.mk (Match.sc_index m) (Match.sc_id m)
                                   (Match.sc_title m) (Match.sc_url m)))
  ∧ (∀ row m, row_outcome by_exact by_norm row = inl m →
              Match.match_mode m = lit "normalized" →
              ∀ c, c ∈ spec_candidates row → by_exact !! c = None)
  ∧ (∀ rows rows',
       match_rows_to_likes (rows ++ rows') by_exact by_norm
       = ((match_rows_to_likes rows by_exact by_norm).1
            ++ (match_rows_to_likes rows' by_exact by_norm).1,
          (match_rows_to_likes rows by_exact by_norm).2
            ++ (match_rows_to_likes rows' by_exact by_norm).2))
  ∧ (∀ rows,
       match_rows_to_likes rows by_exact by_norm
       = (lefts (row_outcome by_exact by_norm <$> rows),
          rights (row_outcome by_exact by_norm <$> rows)))
  ∧ (∀ row,
       match_rows_to_likes [row] by_exact by_norm
       = outcome_lists row (lookup_candidates by_exact by_norm (spec_candidates row)))
  ∧ (∀ row c item, c ∈ spec_candidates row → by_exact !! c = Some item →
       ∃ item',
         scan_exact by_exact (spec_candidates row) = Some item'
         ∧ match_rows_to_likes [row] by_exact by_norm
           = ([match_of row item' (lit "exact")], []))
  ∧ (∀ rows row c item,
       row ∈ rows → c ∈ spec_candidates row → by_exact !! c = Some item →
       ∃ m, m ∈ (match_rows_to_likes rows by_exact by_norm).1
            ∧ Match.row m = row
            ∧ Match.match_mode m = lit "exact"
            ∧ scan_exact by_exact (spec_candidates row)
              = Some (LikeEntry.mk (Match.sc_index m) (Match.sc_id m)
                                   (Match.sc_title m) (Match.sc_url m)))
  ∧ (∀ rows m,
       m ∈ (match_rows_to_likes rows by_exact by_norm).1 →
       Match.match_mode m = lit "normalized" →
       Match.row m ∈ rows
       ∧ ∀ c, c ∈ spec_candidates (Match.row m) → by_exact !! c = None).
Proof.
  assert (∀ row c item, c ∈ spec_candidates row → by_exact !! c = Some item →
            ∃ m, row_outcome by_exact by_norm row = inl m
                 ∧ Match.match_mode m = lit "exact"
                 ∧ scan_exact by_exact (spec_candidates row)
                   = Some (LikeEntry.mk (Match.sc_index m) (Match.sc_id m)
                                        (Match.sc_title m) (Match.sc_url m)))
    as Hexact.
  { intros row c item Hc Hitem.
    destruct (lookup_candidates_exact by_exact by_norm (spec_candidates row) c item
                Hc Hitem) as (item' & Hscan & Hlook).
    unfold row_outcome. rewrite lookup_candidates_spec, Hlook, Hscan.
    eexists. split; [done|]. split; [done|]. cbn. by destruct item'. }
  assert (∀ row m, row_outcome by_exact by_norm row = inl m →
                   Match.match_mode m = lit "normalized" →
                   ∀ c, c ∈ spec_candidates row → by_exact !! c = None) as Hnorm.
  { intros row m. unfold row_outcome. rewrite lookup_candidates_spec.
    unfold lookup_candidates.
    destruct (scan_exact by_exact (spec_candidates row)) as [item|] eqn:He.
    + intros [= <-]. cbn. intros Hmode. by vm_compute in Hmode.
    + intros _ _. by apply scan_exact_None. }
  split_and!.
  - apply lookup_candidates_spec.
  - apply scan_exact_head.
  - apply scan_norm_head.
  - intros Hempty c. by apply norm_lookup_unguarded.
  - intros cs. unfold lookup_candidates. destruct (scan_exact by_exact cs); [done|].
    by destruct (scan_norm by_norm cs).
  - exact Hexact.
  - exact Hnorm.
  - intros rows rows'. unfold match_rows_to_likes at 1.
    rewrite fold_left_app, !match_rows_outcomes. cbn [fst snd].
    rewrite (match_fold _ _ rows), app_nil_l, app_nil_l. apply match_fold.
  - apply match_rows_outcomes.
  - intros row. by rewrite match_rows_single, lookup_candidates_spec.
  - intros row c item Hc Hitem.
    destruct (lookup_candidates_exact by_exact by_norm (spec_candidates row) c item
                Hc Hitem) as (item' & Hscan & Hlook).
    exists item'. split; [done|].
    by rewrite match_rows_single, lookup_candidates_spec, Hlook.
  - intros rows row c item Hrow Hc Hitem.
    destruct (Hexact row c item Hc Hitem) as (m & Hm & Hmode & Hscan).
    exists m. split_and!; [|by eapply row_outcome_row|done|done].
    rewrite match_rows_outcomes. cbn [fst]. apply elem_of_lefts.
    apply list_elem_of_fmap. by exists row.
  - intros rows m. rewrite match_rows_outcomes. cbn [fst].
    rewrite elem_of_lefts, list_elem_of_fmap. intros (row & Hrow & Hin) Hmode.
    symmetry in Hrow. rewrite (row_outcome_row _ _ _ _ Hrow).
    split; [done|]. by eapply Hnorm.
Qed.

End MatcherOrder.

Lemma exact_before_normalized_witness :
  ∃ m, m ∈ (match_rows_to_likes ex_rows (build_likes_maps ex_likes).1
                                (build_likes_maps ex_likes).2).1
       ∧ Match.row m = ex_row "track2.mp3" "A"
       ∧ Match.match_mode m = lit "exact"
       ∧ scan_exact (build_likes_maps ex_likes).1
                    (spec_candidates (ex_row "track2.mp3" "A"))
         = Some (LikeEntry.mk (Match.sc_index m) (Match.sc_id m)
                              (Match.sc_title m) (Match.sc_url m)).
Proof.
  destruct (exact_before_normalized (build_likes_maps ex_likes).1
              (build_likes_maps ex_likes).2)
    as (_ & _ & _ & _ & _ & _ & _ & _ & _ & _ & _ & Hexact & _).
  apply (Hexact ex_rows (ex_row "track2.mp3" "A") (lit "A")
           (LikeEntry.mk 1 (lit "101") (lit "A") (lit "https://soundcloud.com/u/a"))).
  - unfold ex_rows. apply elem_of_cons. right. apply elem_of_cons. left. reflexivity.
  - replace (spec_candidates (ex_row "track2.mp3" "A")) with [lit "A"; lit "track2"]
      by (vm_compute; reflexivity).
    apply elem_of_cons. left. reflexivity.
  - vm_compute. reflexivity.
Defined.

(** ** [split], [strip] and [join] *)

Lemma isspace_SP : isspace 0x20 = true.
Proof. reflexivity. Qed.

Lemma split_from_nospace cur w s :
  nospace w → split_from cur (w ++ s) = split_from (cur ++ w) s.
Proof.
  intros Hw. revert cur. induction Hw as [|c w Hc Hw IH]; intros cur.
  - by rewrite app_nil_r.
  - cbn. rewrite Hc, IH. by rewrite <- app_assoc.
Qed.

Lemma flush_words cur : nospace cur → Forall word (flush cur).
Proof.
  intros Hcur. destruct cur as [|c cur]; cbn; [constructor|].
  constructor; [|constructor]. by split.
Qed.

Lemma split_from_words cur s :
  nospace cur → Forall word (split_from cur s).
Proof.
  revert cur. induction s as [|c s IH]; intros cur Hcur; cbn.
  - by apply flush_words.
  - destruct (isspace c) eqn:Hc.
    + apply Forall_app. split; [by apply flush_words|apply IH; constructor].
    + apply IH. apply Forall_app. split; [done|]. by repeat constructor.
Qed.

Lemma split_join ws :
  Forall word ws → py_split (py_join (lit " ") ws) = ws.
Proof.
  unfold py_split. induction 1 as [|w ws [Hne Hw] Hws IH]; [done|].
  destruct ws as [|w' ws].
  - cbn [py_join]. pose proof (split_from_nospace [] w [] Hw) as Hsplit.
    rewrite app_nil_r in Hsplit. rewrite Hsplit. cbn. by destruct w.
  - change (py_join (lit " ") (w :: w' :: ws))
      with (w ++ lit " " ++ py_join (lit " ") (w' :: ws)).
    rewrite split_from_nospace by done.
    change (split_from ([] ++ w) (lit " " ++ py_join (lit " ") (w' :: ws)))
      with (flush w ++ split_from [] (py_join (lit " ") (w' :: ws))).
    rewrite IH. by destruct w.
Qed.

Lemma split_lstrip s : py_split (lstrip s) = py_split s.
Proof.
  unfold py_split. induction s as [|c s IH]; [done|]. cbn.
  destruct (isspace c) eqn:Hc; [exact IH|]. cbn. by rewrite Hc.
Qed.

Lemma split_from_snoc_space cur s c :
  isspace c = true → split_from cur (s ++ [c]) = split_from cur s.
Proof.
  intros Hc. revert cur. induction s as [|d s IH]; intros cur; cbn.
  - rewrite Hc. cbn. by rewrite app_nil_r.
  - destruct (isspace d); by rewrite IH.
Qed.

Lemma split_rstrip s : py_split (reverse (lstrip (reverse s))) = py_split s.
Proof.
  rewrite <- (reverse_involutive s) at 2. generalize (reverse s) as r. clear s.
  induction r as [|c r IH]; [done|]. cbn [lstrip]. destruct (isspace c) eqn:Hc; [|done].
  rewrite IH, reverse_cons. unfold py_split. by rewrite split_from_snoc_space.
Qed.

Lemma split_strip s : py_split (py_strip s) = py_split s.
Proof. unfold py_strip. by rewrite split_rstrip, split_lstrip. Qed.

(** Splitting and joining again is the identity on what a first
    normalisation returned. *)
Lemma join_split_idem s :
  py_join (lit " ") (py_split (py_strip (py_join (lit " ") (py_split (py_strip s)))))
  = py_join (lit " ") (py_split (py_strip s)).
Proof.
  rewrite (split_strip (py_join _ _)), split_join; [done|].
  apply split_from_words. constructor.
Qed.

Section Idempotence.
Context `{UnicodeData}.

Lemma normalize_title_idem_fixed x :
  normalize_NFKC (normalize_title x) = normalize_title x →
  replace_char FULLWIDTH_COLON (lit ":") (normalize_title x) = normalize_title x →
  str_lower (normalize_title x) = normalize_title x →
  normalize_title (normalize_title x) = normalize_title x.
Proof.
  intros Hn Hr Hl. unfold normalize_title at 1. cbn zeta. rewrite Hn, Hr, Hl.
  unfold normalize_title. cbn zeta. apply join_split_idem.
Qed.

End Idempotence.

(** ** [normalize_title] on Basic Latin and the full-width colon *)

Lemma lstrip_Forall (P : N → Prop) s : Forall P s → Forall P (lstrip s).
Proof.
  induction 1 as [|c s Hc Hs IH]; cbn; [constructor|].
  destruct (isspace c); [done|by constructor].
Qed.

Lemma py_strip_Forall (P : N → Prop) s : Forall P s → Forall P (py_strip s).
Proof.
  intros Hs. unfold py_strip.
  by apply Forall_reverse, lstrip_Forall, Forall_reverse, lstrip_Forall.
Qed.

Lemma flush_Forall (P : N → Prop) cur :
  Forall P cur → Forall (Forall P) (flush cur).
Proof. intros Hcur. destruct cur; cbn; [constructor|]. by constructor. Qed.

Lemma split_from_Forall (P : N → Prop) cur s :
  Forall P cur → Forall P s → Forall (Forall P) (split_from cur s).
Proof.
  intros Hcur Hs. revert cur Hcur.
  induction Hs as [|c s Hc Hs IH]; intros cur Hcur; cbn.
  - by apply flush_Forall.
  - destruct (isspace c).
    + apply Forall_app. split; [by apply flush_Forall|by apply IH].
    + apply IH, Forall_app. split; [done|]. by repeat constructor.
Qed.

Lemma py_join_Forall (P : N → Prop) sep ws :
  Forall P sep → Forall (Forall P) ws → Forall P (py_join sep ws).
Proof.
  intros Hsep. induction 1 as [|w ws Hw Hws IH]; [constructor|].
  destruct ws as [|w' ws]; [done|].
  change (py_join sep (w :: w' :: ws)) with (w ++ sep ++ py_join sep (w' :: ws)).
  by rewrite !Forall_app.
Qed.

Lemma caron_pairs_above_basic : Forall (λ p, (128 ≤ p.2)%N) caron_pairs.
Proof. apply (bool_decide_unpack _). vm_compute. exact I. Qed.

Lemma base_of_basic c : basic c → base_of c = None.
Proof.
  unfold basic, base_of. intros Hc.
  assert (list_find (λ p : N * N, p.2 = c) caron_pairs = None) as ->; [|done].
  apply list_find_None. eapply Forall_impl; [apply caron_pairs_above_basic|].
  cbn. intros p Hp. lia.
Qed.

Lemma compose_unfold b m rest :
  compose (b :: m :: rest)
  = match (if decide (m = COMBINING_CARON) then composite_of b else None) with
    | Some c => c :: compose rest
    | None => b :: compose (m :: rest)
    end.
Proof. reflexivity. Qed.

Lemma compose_basic s : Forall basic s → compose s = s.
Proof.
  induction 1 as [|b s Hb Hs IH]; [done|]. destruct s as [|m rest]; [done|].
  rewrite compose_unfold, IH. rewrite decide_False; [done|].
  inversion_clear Hs as [|? ? Hm _]. unfold basic, COMBINING_CARON in *. lia.
Qed.

Lemma decompose_basic s : Forall basic s → s ≫= decompose = s.
Proof.
  induction 1 as [|c s Hc Hs IH]; [done|]. cbn. rewrite IH. unfold decompose.
  rewrite decide_False by (unfold basic, FULLWIDTH_COLON in *; lia).
  by rewrite base_of_basic.
Qed.

Lemma decompose_plain s : Forall plain s → Forall basic (s ≫= decompose).
Proof.
  induction 1 as [|c s Hc Hs IH]; [constructor|]. cbn. apply Forall_app.
  split; [|done]. unfold decompose. case_decide.
  - by repeat constructor.
  - destruct Hc as [Hc|Hc]; [|done]. rewrite base_of_basic by done.
    by repeat constructor.
Qed.

Lemma replace_colon_basic s :
  Forall basic s → replace_char FULLWIDTH_COLON (lit ":") s = s.
Proof.
  unfold replace_char. induction 1 as [|c s Hc Hs IH]; [done|].
  rewrite bind_cons, IH.
  by rewrite decide_False by (unfold basic, FULLWIDTH_COLON in *; lia).
Qed.

Lemma lower1_basic c : basic c → basic_lower (lower1 c).
Proof.
  unfold basic_lower, basic, lower1, is_upper_ascii. intros Hc.
  case_bool_decide as Hu.
  - split; [lia|]. apply bool_decide_eq_false. lia.
  - rewrite base_of_basic by done. split; [done|]. by apply bool_decide_eq_false.
Qed.

Lemma lower1_basic_lower c : basic_lower c → lower1 c = c.
Proof.
  intros [Hc Hu]. unfold lower1. rewrite Hu. by rewrite base_of_basic.
Qed.

Lemma basic_lower_basic s : Forall basic_lower s → Forall basic s.
Proof. intros Hs. eapply Forall_impl; [exact Hs|]. by intros c [Hc _]. Qed.

(** The normal form of a string of Basic Latin characters and
    full-width colons has no upper-case letter and stays in Basic
    Latin. *)
Lemma normalize_title_plain x :
  Forall plain x → Forall basic_lower (normalize_title x).
Proof.
  intros Hx. unfold normalize_title. cbn zeta.
  apply py_join_Forall; [by repeat constructor|].
  apply split_from_Forall; [constructor|]. apply py_strip_Forall.
  cbn [normalize_NFKC str_lower latin_caron].
  rewrite compose_basic by by apply decompose_plain.
  rewrite replace_colon_basic by by apply decompose_plain.
  apply Forall_fmap. eapply Forall_impl; [by apply decompose_plain|].
  intros c Hc. by apply lower1_basic.
Qed.

Lemma normalize_title_idem_plain x :
  Forall plain x → normalize_title (normalize_title x) = normalize_title x.
Proof.
  intros Hx. pose proof (normalize_title_plain x Hx) as Hy.
  pose proof (basic_lower_basic _ Hy) as Hb.
  apply normalize_title_idem_fixed.
  - cbn [normalize_NFKC latin_caron]. by rewrite decompose_basic, compose_basic.
  - by apply replace_colon_basic.
  - cbn [str_lower latin_caron]. clear Hb Hx.
    induction Hy as [|c s Hc Hs IH]; [done|]. rewrite fmap_cons.
    by rewrite IH, lower1_basic_lower.
Qed.

(** C7 (amended). [normalize_title] is idempotent at every string whose
    normal form is left unchanged by NFKC, by the colon replacement and
    by lower-casing, in particular at every string of Basic Latin
    characters and full-width colons; it is not idempotent at J followed
    by COMBINING CARON, whose normal form j + U+030C normalises to
    U+01F0. The titles [Foo：Bar] and [foo:bar] normalise to [foo:bar];
    ["  FOO:  BAR "] normalises to [foo: bar]: a run of whitespace
    becomes one space, it is not removed. *)
Theorem normalize_title_idempotence :
  (∀ (U : UnicodeData) x,
     @normalize_NFKC U (@normalize_title U x) = @normalize_title U x →
     replace_char FULLWIDTH_COLON (lit ":") (@normalize_title U x)
     = @normalize_title U x →
     @str_lower U (@normalize_title U x) = @normalize_title U x →
     @normalize_title U (@normalize_title U x) = @normalize_title U x)
  ∧ (∀ x, Forall plain x →
          normalize_title (normalize_title x) = normalize_title x)
  ∧ normalize_title (lit "Foo" ++ [FULLWIDTH_COLON] ++ lit "Bar") = lit "foo:bar"
  ∧ normalize_title (lit "foo:bar") = lit "foo:bar"
  ∧ normalize_title (lit "  FOO:  BAR ") = lit "foo: bar"
  ∧ normalize_title (lit "foo: bar") = lit "foo: bar"
  ∧ normalize_title J_caron = [0x6A; 0x30C]%N
  ∧ normalize_title (normalize_title J_caron) = [0x1F0]%N.
Proof.
  split_and!.
  - intros U x. apply normalize_title_idem_fixed.
  - apply normalize_title_idem_plain.
  - vm_compute. reflexivity.
  - vm_compute. reflexivity.
  - vm_compute. reflexivity.
  - vm_compute. reflexivity.
  - vm_compute. reflexivity.
  - vm_compute. reflexivity.
Qed.

Lemma normalize_title_idempotence_witness :
  normalize_title (normalize_title (lit "  FOO:  BAR "))
  = normalize_title (lit "  FOO:  BAR ")
  ∧ Forall plain (lit "Foo" ++ [FULLWIDTH_COLON] ++ lit "Bar").
Proof.
  destruct normalize_title_idempotence as (Hfixed & _).
  split.
  - apply (Hfixed latin_caron (lit "  FOO:  BAR ")); vm_compute; reflexivity.
  - apply (bool_decide_unpack _). vm_compute. exact I.
Defined.

(** C7, as stated, fails on its example: the third title keeps a space
    after the colon. *)
Lemma three_titles_counterexample :
  normalize_title (lit "  FOO:  BAR ") = lit "foo: bar"
  ∧ normalize_title (lit "foo:bar") = lit "foo:bar"
  ∧ normalize_title (lit "  FOO:  BAR ") ≠ normalize_title (lit "foo:bar").
Proof. split_and!; [vm_compute; reflexivity..|vm_compute; discriminate]. Qed.

(** And on idempotence, outside Basic Latin. *)
Lemma normalize_title_not_idempotent :
  normalize_title (normalize_title J_caron) ≠ normalize_title J_caron.
Proof. vm_compute. discriminate. Qed.

(** ** The likes handed to the index *)

Lemma collect_likes_bounds i entries :
  Forall (λ e, i ≤ LikeEntry.index e ∧ LikeEntry.title e ≠ [])
         (collect_likes i entries).
Proof.
  revert i. induction entries as [|[entry|] entries IH]; intros i; cbn.
  - constructor.
  - destruct (py_strip _) as [|c title] eqn:Ht.
    + eapply Forall_impl; [apply (IH (i + 1))|]. cbn. intros e [Hi He]. split; [lia|done].
    + constructor; [cbn; split; [lia|done]|].
      eapply Forall_impl; [apply (IH (i + 1))|]. cbn. intros e [Hi He]. split; [lia|done].
  - eapply Forall_impl; [apply (IH (i + 1))|]. cbn. intros e [Hi He]. split; [lia|done].
Qed.

(** [fetch_likes] hands over ranks in strictly ascending order. *)
Lemma collect_likes_sorted i entries :
  StronglySorted (λ a b, LikeEntry.index a < LikeEntry.index b)
                 (collect_likes i entries).
Proof.
  revert i. induction entries as [|[entry|] entries IH]; intros i; cbn.
  - constructor.
  - destruct (py_strip _) as [|c title]; [apply IH|].
    constructor; [apply IH|].
    eapply Forall_impl; [apply (collect_likes_bounds (i + 1))|]. cbn. intros e [Hi _]. lia.
  - apply IH.
Qed.

Lemma fetch_likes_cases entries :
  (collect_likes 1 entries = [] ∧ fetch_likes entries = Raise RuntimeError)
  ∨ (collect_likes 1 entries ≠ []
     ∧ fetch_likes entries = Ok (collect_likes 1 entries)).
Proof.
  unfold fetch_likes. destruct (collect_likes 1 entries); [by left|by right].
Qed.

(** C9, as stated, fails: on the empty sequence [build_likes_maps]
    returns two empty dictionaries and raises nothing. *)
Lemma build_likes_maps_empty_counterexample :
  (mret (build_likes_maps []) : Result _) = Ok (∅, ∅)
  ∧ ¬ raises (mret (build_likes_maps []) : Result _).
Proof. split; [reflexivity|]. intros [e He]. discriminate He. Qed.

(** C9 (amended). [build_likes_maps] never fails, and on the empty
    sequence it returns two empty dictionaries; the empty reference list
    is rejected before, by [fetch_likes], which raises [RuntimeError]
    if and only if no entry of the payload has a title that is
    non-empty after stripping, and otherwise returns a non-empty list of
    likes with non-empty titles and ranks from 1 on; hence [main] stops
    with that error before the index is built or a row is matched, and
    reaches the assignment only with a non-empty list of likes. *)
Theorem empty_likes_rejected_by_fetch :
  build_likes_maps [] = (∅, ∅)
  ∧ fetch_likes [] = Raise RuntimeError
  ∧ (∀ entries, raises (fetch_likes entries) ↔ collect_likes 1 entries = [])
  ∧ (∀ entries e, fetch_likes entries = Raise e → e = RuntimeError)
  ∧ (∀ entries likes, fetch_likes entries = Ok likes →
       likes ≠ [] ∧ likes = collect_likes 1 entries
       ∧ Forall (λ e, 1 ≤ LikeEntry.index e ∧ LikeEntry.title e ≠ []) likes)
  ∧ (∀ strptime args entries rows now,
       1 ≤ step_seconds args → collect_likes 1 entries = [] →
       main strptime args entries rows now = Raise RuntimeError)
  ∧ (∀ strptime args entries rows now anchor planned unmatched,
       main strptime args entries rows now = Ok (Planned anchor planned unmatched) →
       collect_likes 1 entries ≠ []).
Proof.
  split_and!.
  - reflexivity.
  - reflexivity.
  - intros entries. destruct (fetch_likes_cases entries) as [[Hc Hf]|[Hc Hf]];
      rewrite Hf; split; try done.
    + intros _. by eexists.
    + by intros [e He].
  - intros entries e. destruct (fetch_likes_cases entries) as [[Hc Hf]|[Hc Hf]];
      rewrite Hf; congruence.
  - intros entries likes. destruct (fetch_likes_cases entries) as [[Hc Hf]|[Hc Hf]];
      rewrite Hf; [done|]. intros [= <-]. split_and!; [done..|].
    apply collect_likes_bounds.
  - intros strptime args entries rows now Hstep Hnone. unfold main.
    rewrite decide_False by lia.
    destruct (fetch_likes_cases entries) as [[Hc Hf]|[Hc Hf]]; [|done].
    by rewrite Hf.
  - intros strptime args entries rows now anchor planned unmatched. unfold main.
    case_decide; [done|].
    destruct (fetch_likes_cases entries) as [[Hc Hf]|[Hc Hf]]; [|done].
    by rewrite Hf.
Qed.

Lemma empty_likes_rejected_by_fetch_witness :
  main strptime_reject ex_dense [None] ex_rows 0 = Raise RuntimeError.
Proof.
  destruct empty_likes_rejected_by_fetch as (_ & _ & _ & _ & _ & Hmain & _).
  apply Hmain; [vm_compute; discriminate|reflexivity].
Defined.

(** ** Anchor resolution *)

Section Anchor.
Variable strptime : str → str → Result datetime.

Lemma resolve_anchor_override args matched now :
  anchor_datetime args ≠ [] →
  resolve_anchor strptime args matched now
  = parse_anchor_datetime strptime (anchor_datetime args).
Proof. unfold resolve_anchor. by destruct (anchor_datetime args). Qed.

Lemma parse_anchor_datetime_first raw dt :
  strptime raw (lit "%Y-%m-%dT%H:%M:%S") = Ok dt →
  parse_anchor_datetime strptime raw = Ok dt.
Proof. intros Hp. unfold parse_anchor_datetime. cbn [foldr]. by rewrite Hp. Qed.

Lemma fold_max_Some (rest : list (option datetime)) (x : datetime) :
  Forall (λ o, o ≠ None) rest →
  ∃ t, fold_left (λ best y, if dt_lt best y then y else best) rest (Some x) = Some t
       ∧ (t = x ∨ Some t ∈ rest) ∧ x ≤ t ∧ ∀ t', Some t' ∈ rest → t' ≤ t.
Proof.
  intros Hrest. revert x. induction Hrest as [|[y|] rest Hy Hrest IH]; intros x; [|..|done].
  - exists x. cbn. split_and!; [done|by left|lia|]. intros t' Ht'. by apply elem_of_nil in Ht'.
  - cbn [fold_left dt_lt]. case_bool_decide as Hlt.
    + destruct (IH y) as (t & Ht & Hin & Hle & Hmax). exists t. split_and!; [done| |lia|].
      * right. destruct Hin as [->|Hin]; [by left|by right].
      * intros t' Ht'. apply elem_of_cons in Ht' as [[= ->]|Ht']; [done|by apply Hmax].
    + destruct (IH x) as (t & Ht & Hin & Hle & Hmax). exists t. split_and!; [done| |lia|].
      * destruct Hin as [->|Hin]; [by left|right; by right].
      * intros t' Ht'. apply elem_of_cons in Ht' as [[= ->]|Ht']; [lia|by apply Hmax].
Qed.

(** Stage two: without an override and with at least one old
    timestamp, the anchor is the greatest of them. *)
Lemma resolve_anchor_max args matched now m0 t0 :
  anchor_datetime args = [] → m0 ∈ matched → Match.old_created_at m0 = Some t0 →
  ∃ t, resolve_anchor strptime args matched now = Ok t
       ∧ (∃ m, m ∈ matched ∧ Match.old_created_at m = Some t)
       ∧ ∀ m t', m ∈ matched → Match.old_created_at m = Some t' → t' ≤ t.
Proof.
  intros Hno Hm0 Ht0. unfold resolve_anchor. rewrite Hno.
  set (olds := filter (λ o, o ≠ None) (Match.old_created_at <$> matched)).
  assert (Forall (λ o, o ≠ None) olds) as Hall.
  { apply Forall_forall. intros o Ho. by apply list_elem_of_filter in Ho as [Ho _]. }
  assert (∀ t, Some t ∈ olds ↔ ∃ m, m ∈ matched ∧ Match.old_created_at m = Some t)
    as Hin.
  { intros t. unfold olds. rewrite list_elem_of_filter, list_elem_of_fmap. split.
    - intros [_ (m & Hm & Hmm)]. by exists m.
    - intros (m & Hm & Hmm). split; [done|]. by exists m. }
  assert (Some t0 ∈ olds) as Hne by (apply Hin; by exists m0).
  destruct olds as [|[x|] rest]; [by apply elem_of_nil in Hne| |by inversion Hall].
  inversion_clear Hall as [|? ? _ Hrest].
  destruct (fold_max_Some rest x Hrest) as (t & Ht & Hmem & Hle & Hmax).
  exists t. cbn. rewrite Ht. split_and!; [done| |].
  - apply Hin. destruct Hmem as [->|Hmem]; [by left|by right].
  - intros m t' Hm Hmt. assert (Some t' ∈ Some x :: rest) as Ht' by (apply Hin; by exists m).
    apply elem_of_cons in Ht' as [[= ->]|Ht']; [done|by apply Hmax].
Qed.

(** Stage three is never reached: without an override and without any
    old timestamp, [max] raises [ValueError]. *)
Lemma resolve_anchor_no_timestamps args matched now :
  anchor_datetime args = [] →
  Forall (λ m, Match.old_created_at m = None) matched →
  resolve_anchor strptime args matched now = Raise ValueError.
Proof.
  intros Hno Hall. unfold resolve_anchor. rewrite Hno.
  assert (filter (λ o, o ≠ None) (Match.old_created_at <$> matched) = []) as ->; [|done].
  induction Hall as [|m matched Hm Hall IH]; [done|].
  rewrite fmap_cons, filter_cons, Hm, IH. by rewrite decide_False by (by intros []).
Qed.

(** The clock is never consulted. *)
Lemma resolve_anchor_ignores_now args matched now now' :
  resolve_anchor strptime args matched now = resolve_anchor strptime args matched now'.
Proof.
  unfold resolve_anchor. destruct (anchor_datetime args); [|done].
  set (olds := filter (λ o, o ≠ None) (Match.old_created_at <$> matched)).
  assert (Forall (λ o, o ≠ None) olds) as Hall.
  { apply Forall_forall. intros o Ho. by apply list_elem_of_filter in Ho as [Ho _]. }
  destruct olds as [|[x|] rest]; [done| |by inversion Hall].
  inversion_clear Hall as [|? ? _ Hrest].
  destruct (fold_max_Some rest x Hrest) as (t & Ht & _). cbn. by rewrite Ht.
Qed.

(** C8, on the code: rows none of which has a [created_at], matched
    against the four likes of the example, no [--anchor-datetime]:
    [main] passes matching with three matched rows and then stops with
    the [ValueError] of [max] on an empty sequence; the value of the
    clock plays no part. *)
Theorem anchor_fallback_raises now :
  length (fst ex_match) = 3%nat
  ∧ Forall (λ m, Match.old_created_at m = None) (fst ex_match)
  ∧ anchor_datetime ex_dense = []
  ∧ resolve_anchor strptime ex_dense (fst ex_match) now = Raise ValueError
  ∧ main strptime ex_dense ex_entries ex_rows now = Raise ValueError.
Proof.
  split_and!.
  - vm_compute. reflexivity.
  - apply (bool_decide_unpack _). vm_compute. exact I.
  - reflexivity.
  - vm_compute. reflexivity.
  - vm_compute. reflexivity.
Qed.

End Anchor.

(** ** [main] and its stages *)

Section MainStages.
Context `{UnicodeData}.
Variable strptime : str → str → Result datetime.

(** A run of [main] that reaches the plan went through every stage:
    the step is at least 1, the likes and the matched rows are
    non-empty, and the planned records are those of
    [assign_created_at] for the resolved anchor. *)
Lemma main_Planned_inv args entries rows now anchor planned unmatched :
  main strptime args entries rows now = Ok (Planned anchor planned unmatched) →
  ∃ likes matched anchor0,
    1 ≤ step_seconds args
    ∧ fetch_likes entries = Ok likes ∧ likes ≠ []
    ∧ match_rows_to_likes rows (build_likes_maps likes).1 (build_likes_maps likes).2
      = (matched, unmatched)
    ∧ matched ≠ []
    ∧ resolve_anchor strptime args matched now = Ok anchor0
    ∧ anchor = ensure_millis_precision anchor0
    ∧ assign_created_at args anchor0 matched = Ok planned.
Proof.
  unfold main. case_decide as Hstep; [done|].
  destruct (fetch_likes_cases entries) as [[Hc Hf]|[Hc Hf]]; rewrite Hf; [done|].
  cbn [mbind Result_bind].
  destruct (build_likes_maps (collect_likes 1 entries)) as [by_exact by_norm] eqn:Hmaps.
  destruct rows as [|row rows]; [done|].
  destruct (match_rows_to_likes (row :: rows) by_exact by_norm)
    as [matched unmatched'] eqn:Hmatch.
  destruct matched as [|m matched]; [done|].
  destruct (resolve_anchor strptime args (m :: matched) now) as [anchor0|e] eqn:Ha;
    [|done].
  cbn [mbind Result_bind].
  destruct (assign_created_at args anchor0 (m :: matched)) as [planned'|e] eqn:Hp;
    [|done].
  cbn [mbind Result_bind]. intros [= <- <- <-].
  exists (collect_likes 1 entries), (m :: matched), anchor0.
  split_and!; try done; [lia|]. by rewrite Hmaps.
Qed.

End MainStages.

(** * Further properties of the code *)

(** ** The plan of new timestamps *)

Lemma planned_Forall2 args anchor matched planned :
  assign_created_at args anchor matched = Ok planned →
  Forall2 (λ m m', ∃ t, m' = set_new_created_at m t)
          (sorted Match.sc_index matched) planned.
Proof.
  intros Hok. destruct (assign_created_at_Ok _ _ _ _ Hok) as [Hlen Hnth].
  apply Forall2_same_length_lookup. split; [by rewrite sorted_length|].
  intros p m m' Hm Hm'. destruct (Hnth p m Hm) as [_ Hp].
  rewrite Hp in Hm'. injection Hm' as <-. by eexists.
Qed.

Lemma assign_from_exn args anchor pos ms e :
  assign_from args anchor pos ms = Raise e → e = OverflowError.
Proof.
  revert pos. induction ms as [|m rest IH]; intros pos; [done|].
  cbn [assign_from]. unfold timedelta_seconds. case_decide; [|by intros [= <-]].
  cbn. unfold datetime_sub. case_decide; [|by intros [= <-]]. cbn.
  destruct (assign_from args anchor (pos + 1) rest) as [rest'|e'] eqn:Hrest; [done|].
  cbn. intros [= <-]. by eapply IH.
Qed.

(** X1. The loop of lines 344-351 changes nothing but the two timestamp
    fields: the planned records are the matched records in sorted order,
    each with the same row columns, file path, local title, like data,
    match mode and old timestamp, and with [new_created_at] and the
    row's [created_at] set to one and the same new value. *)
Theorem assign_created_at_keeps_records args anchor matched planned :
  assign_created_at args anchor matched = Ok planned →
  sorted Match.sc_index matched ≡ₚ matched
  ∧ Forall2
      (λ m m',
         DjmdContent.FolderPath (Match.row m') = DjmdContent.FolderPath (Match.row m)
         ∧ DjmdContent.Title (Match.row m') = DjmdContent.Title (Match.row m)
         ∧ Match.file_path m' = Match.file_path m
         ∧ Match.local_title m' = Match.local_title m
         ∧ Match.sc_index m' = Match.sc_index m
         ∧ Match.sc_id m' = Match.sc_id m
         ∧ Match.sc_title m' = Match.sc_title m
         ∧ Match.sc_url m' = Match.sc_url m
         ∧ Match.match_mode m' = Match.match_mode m
         ∧ Match.old_created_at m' = Match.old_created_at m
         ∧ is_Some (Match.new_created_at m')
         ∧ DjmdContent.created_at (Match.row m') = Match.new_created_at m')
      (sorted Match.sc_index matched) planned.
Proof.
  intros Hok. split; [apply sorted_perm|].
  eapply Forall2_impl; [exact (planned_Forall2 _ _ _ _ Hok)|].
  intros m m' [t ->]. cbn. by split_and!.
Qed.

Lemma assign_created_at_keeps_records_witness :
  ∃ planned,
    assign_created_at ex_dense ex_anchor (fst ex_match) = Ok planned
    ∧ (Match.old_created_at <$> planned)
      = (Match.old_created_at <$> sorted Match.sc_index (fst ex_match)).
Proof.
  destruct (assign_created_at ex_dense ex_anchor (fst ex_match)) as [planned|e] eqn:Hok;
    [|by vm_compute in Hok].
  exists planned. split; [done|].
  destruct (assign_created_at_keeps_records _ _ _ _ Hok) as [_ Hall]. clear Hok.
  revert Hall. generalize (sorted Match.sc_index (fst ex_match)). intros l Hall.
  induction Hall as [|m m' l l' Hm Hall IH]; [done|].
  rewrite !fmap_cons, IH. f_equal. apply Hm.
Defined.

(** X2. Without [--use-like-index-offset] (dense offsets), the
    timestamps of two neighbours in the plan differ by exactly
    [step_seconds] seconds, and with [step_seconds >= 1] no two planned
    records share a timestamp, not even rows matched to the same like. *)
Theorem dense_timestamps_distinct args anchor matched planned :
  use_like_index_offset args = false →
  assign_created_at args anchor matched = Ok planned →
  (∀ p a b ta tb,
     planned !! p = Some a → planned !! S p = Some b →
     Match.new_created_at a = Some ta → Match.new_created_at b = Some tb →
     ta - tb = step_seconds args * US_PER_SECOND)
  ∧ (1 ≤ step_seconds args →
     ∀ p q a b, p ≠ q → planned !! p = Some a → planned !! q = Some b →
                Match.new_created_at a ≠ Match.new_created_at b).
Proof.
  intros Hmode Hok.
  assert (∀ p m, planned !! p = Some m →
            Match.new_created_at m
            = Some (ensure_millis_precision anchor
                    - Z.of_nat p * step_seconds args * US_PER_SECOND)) as Hnew.
  { intros p m Hp. destruct (planned_lookup _ _ _ _ _ _ Hok Hp) as (m0 & _ & ->).
    cbn. unfold spec_new_timestamp, spec_offset_steps. by rewrite Hmode. }
  split.
  - intros p a b ta tb Ha Hb Hta Htb.
    rewrite (Hnew _ _ Ha) in Hta. rewrite (Hnew _ _ Hb) in Htb.
    injection Hta as <-. injection Htb as <-. lia.
  - intros Hstep p q a b Hpq Ha Hb. rewrite (Hnew _ _ Ha), (Hnew _ _ Hb).
    intros [= Heq]. unfold US_PER_SECOND in Heq. apply Hpq. nia.
Qed.

Lemma dense_timestamps_distinct_witness :
  ∃ planned,
    assign_created_at ex_dense ex_anchor (fst dup_match) = Ok planned
    ∧ ∀ p q a b, p ≠ q → planned !! p = Some a → planned !! q = Some b →
                 Match.new_created_at a ≠ Match.new_created_at b.
Proof.
  destruct (assign_created_at ex_dense ex_anchor (fst dup_match)) as [planned|e] eqn:Hok;
    [|by vm_compute in Hok].
  exists planned. split; [done|].
  apply (dense_timestamps_distinct ex_dense ex_anchor (fst dup_match) planned);
    [reflexivity|exact Hok|vm_compute; discriminate].
Defined.

(** X3. With [--use-like-index-offset] the timestamps of two planned
    records differ by exactly the difference of their like indices
    times [step_seconds] seconds, whatever lies between them; two rows
    matched to the same like are therefore given the same timestamp. *)
Theorem rank_gap_timestamps args anchor matched planned :
  use_like_index_offset args = true →
  assign_created_at args anchor matched = Ok planned →
  (∀ p q a b ta tb,
     planned !! p = Some a → planned !! q = Some b →
     Match.new_created_at a = Some ta → Match.new_created_at b = Some tb →
     ta - tb = (Match.sc_index b - Match.sc_index a) * step_seconds args * US_PER_SECOND)
  ∧ (∀ p q a b, planned !! p = Some a → planned !! q = Some b →
                Match.sc_index a = Match.sc_index b →
                Match.new_created_at a = Match.new_created_at b).
Proof.
  intros Hmode Hok.
  assert (∀ p m, planned !! p = Some m →
            Match.new_created_at m
            = Some (ensure_millis_precision anchor
                    - (Match.sc_index m - 1) * step_seconds args * US_PER_SECOND))
    as Hnew.
  { intros p m Hp. destruct (planned_lookup _ _ _ _ _ _ Hok Hp) as (m0 & _ & ->).
    cbn. unfold spec_new_timestamp, spec_offset_steps. by rewrite Hmode. }
  split.
  - intros p q a b ta tb Ha Hb Hta Htb.
    rewrite (Hnew _ _ Ha) in Hta. rewrite (Hnew _ _ Hb) in Htb.
    injection Hta as <-. injection Htb as <-. lia.
  - intros p q a b Ha Hb Heq. by rewrite (Hnew _ _ Ha), (Hnew _ _ Hb), Heq.
Qed.

Lemma rank_gap_timestamps_witness :
  ∃ planned a b,
    assign_created_at ex_rank_gap ex_anchor (fst dup_match) = Ok planned
    ∧ planned !! 0%nat = Some a ∧ planned !! 1%nat = Some b
    ∧ Match.new_created_at a = Match.new_created_at b.
Proof.
  destruct (assign_created_at ex_rank_gap ex_anchor (fst dup_match))
    as [planned|e] eqn:Hok; [|by vm_compute in Hok].
  destruct (planned !! 0%nat) as [a|] eqn:Ha; [|by vm_compute in Hok; injection Hok as <-].
  destruct (planned !! 1%nat) as [b|] eqn:Hb; [|by vm_compute in Hok; injection Hok as <-].
  exists planned, a, b. split_and!; [done..|].
  destruct (rank_gap_timestamps ex_rank_gap ex_anchor (fst dup_match) planned
              eq_refl Hok) as [_ Hsame].
  apply (Hsame 0%nat 1%nat a b Ha Hb).
  vm_compute in Hok. injection Hok as <-. vm_compute in Ha, Hb.
  injection Ha as <-. injection Hb as <-. reflexivity.
Defined.

(** X4. For an anchor that is a [datetime], the loop of lines 344-351
    fails if and only if one of the timestamps it has to build lies
    outside the range of [datetime] (years 1 to 9999); the exception is
    always [OverflowError], and then no plan is returned. *)
Theorem assign_created_at_overflow_iff args anchor matched :
  dt_valid anchor →
  (assign_created_at args anchor matched = Raise OverflowError
   ↔ ¬ batch_in_range args anchor matched)
  ∧ (∀ e, assign_created_at args anchor matched = Raise e → e = OverflowError)
  ∧ (is_Some (result_to_option (assign_created_at args anchor matched))
     ↔ batch_in_range args anchor matched).
Proof.
  intros Ha.
  assert (∀ e, assign_created_at args anchor matched = Raise e → e = OverflowError)
    as Hexn by (intros e; apply assign_from_exn).
  split_and!; [|exact Hexn|].
  - split.
    + intros Hraise Hr. destruct (assign_created_at_total _ _ _ Ha Hr) as [planned Hok].
      congruence.
    + intros Hn. destruct (assign_created_at_overflow _ _ _ Hn) as [e He].
      by rewrite He, (Hexn e He).
  - split.
    + intros [planned Hp].
      destruct (assign_created_at args anchor matched) as [planned'|e] eqn:Hok; [|done].
      apply batch_in_range_lookup. intros p m Hs.
      by destruct (proj2 (assign_created_at_Ok _ _ _ _ Hok) p m Hs).
    + intros Hr. destruct (assign_created_at_total _ _ _ Ha Hr) as [planned Hok].
      rewrite Hok. by eexists.
Qed.

Lemma assign_created_at_overflow_iff_witness :
  assign_created_at ex_huge_step ex_anchor (fst ex_match) = Raise OverflowError.
Proof.
  apply (assign_created_at_overflow_iff ex_huge_step ex_anchor (fst ex_match)).
  - vm_compute. split; [discriminate|reflexivity].
  - apply (bool_decide_unpack _). vm_compute. exact I.
Defined.

(** X5. With [step_seconds >= 0] no planned timestamp is later than the
    fixed anchor: in dense mode always, with [--use-like-index-offset]
    when every like index is at least 1, as [fetch_likes] numbers
    them. *)
Theorem planned_not_after_anchor args anchor matched planned :
  0 ≤ step_seconds args →
  (use_like_index_offset args = true → ∀ m, m ∈ matched → 1 ≤ Match.sc_index m) →
  assign_created_at args anchor matched = Ok planned →
  ∀ m t, m ∈ planned → Match.new_created_at m = Some t →
         t ≤ ensure_millis_precision anchor.
Proof.
  intros Hstep Hranks Hok m t Hm Ht. apply list_elem_of_lookup in Hm as [p Hp].
  destruct (planned_lookup _ _ _ _ _ _ Hok Hp) as (m0 & Hm0 & ->). cbn in Ht.
  injection Ht as <-. unfold spec_new_timestamp, spec_offset_steps, US_PER_SECOND.
  destruct (use_like_index_offset args) eqn:Hmode; [|nia].
  assert (1 ≤ Match.sc_index m0); [|nia].
  apply Hranks; [done|]. rewrite <- (sorted_perm Match.sc_index matched).
  by eapply list_elem_of_lookup_2.
Qed.

Lemma planned_not_after_anchor_witness :
  ∃ planned,
    assign_created_at ex_rank_gap ex_anchor (fst ex_match) = Ok planned
    ∧ ∀ m t, m ∈ planned → Match.new_created_at m = Some t →
             t ≤ ensure_millis_precision ex_anchor.
Proof.
  destruct (assign_created_at ex_rank_gap ex_anchor (fst ex_match))
    as [planned|e] eqn:Hok; [|by vm_compute in Hok].
  exists planned. split; [done|].
  apply (planned_not_after_anchor ex_rank_gap ex_anchor (fst ex_match) planned);
    [vm_compute; discriminate| |exact Hok].
  intros _. apply Forall_forall. apply (bool_decide_unpack _). vm_compute. exact I.
Defined.

Lemma filter_rank_Forall2 k (l l' : list Match.t) :
  Forall2 (λ m m', ∃ t, m' = set_new_created_at m t) l l' →
  Match.file_path <$> filter (λ m, Match.sc_index m = k) l'
  = Match.file_path <$> filter (λ m, Match.sc_index m = k) l.
Proof.
  induction 1 as [|m m' l l' [t ->] Hall IH]; [done|].
  rewrite !filter_cons. cbn [Match.sc_index set_new_created_at].
  destruct (decide (Match.sc_index m = k)); [|done].
  by rewrite !fmap_cons, IH.
Qed.

(** X6. The sort of line 344 is stable and the loop keeps its order:
    among the rows matched to one and the same like, the plan lists
    them in the order of the rows, so without
    [--use-like-index-offset] the earlier row is given the later
    timestamp. *)
Theorem plan_keeps_row_order args anchor matched planned k :
  assign_created_at args anchor matched = Ok planned →
  Match.file_path <$> filter (λ m, Match.sc_index m = k) planned
  = Match.file_path <$> filter (λ m, Match.sc_index m = k) matched.
Proof.
  intros Hok. rewrite (filter_rank_Forall2 k _ _ (planned_Forall2 _ _ _ _ Hok)).
  by rewrite sorted_stable.
Qed.

Lemma plan_keeps_row_order_witness :
  ∃ planned,
    assign_created_at ex_dense ex_anchor (fst dup_match) = Ok planned
    ∧ Match.file_path <$> filter (λ m, Match.sc_index m = 1) planned
      = [lit "/Music/sc/a.mp3"; lit "/Music/sc/a.wav"].
Proof.
  destruct (assign_created_at ex_dense ex_anchor (fst dup_match)) as [planned|e] eqn:Hok;
    [|by vm_compute in Hok].
  exists planned. split; [done|].
  rewrite (plan_keeps_row_order ex_dense ex_anchor (fst dup_match) planned 1 Hok).
  vm_compute. reflexivity.
Defined.

(** ** The likes, the index and the matcher together *)

Lemma lstrip_head s c : head (lstrip s) = Some c → isspace c = false.
Proof.
  induction s as [|d s IH]; [done|]. cbn. destruct (isspace d) eqn:Hd; [exact IH|].
  cbn. by intros [= <-].
Qed.

Lemma lstrip_suffix s : ∃ pre, s = pre ++ lstrip s.
Proof.
  induction s as [|d s [pre IH]]; [by exists []|]. cbn. destruct (isspace d).
  - exists (d :: pre). cbn. by rewrite <- IH.
  - by exists [].
Qed.

(** [strip] leaves no whitespace at either end. *)
Lemma py_strip_ends s c :
  (head (py_strip s) = Some c → isspace c = false)
  ∧ (last (py_strip s) = Some c → isspace c = false).
Proof.
  unfold py_strip. split.
  - destruct (lstrip_suffix (reverse (lstrip s))) as [pre Hpre].
    destruct (lstrip (reverse (lstrip s))) as [|d b] eqn:Hb; [done|].
    apply (f_equal reverse) in Hpre. rewrite reverse_involutive, reverse_app in Hpre.
    intros Hh. apply (lstrip_head s). rewrite Hpre.
    destruct (reverse (d :: b)) as [|x xs] eqn:Hr; [|exact Hh].
    apply (f_equal length) in Hr. rewrite length_reverse in Hr. done.
  - rewrite last_reverse. apply lstrip_head.
Qed.

Lemma collect_likes_elem_of i0 entries e :
  e ∈ collect_likes i0 entries
  ↔ ∃ j entry, entries !! j = Some (Some entry)
               ∧ LikeEntry.title (like_of (i0 + Z.of_nat j) entry) ≠ []
               ∧ e = like_of (i0 + Z.of_nat j) entry.
Proof.
  revert i0. induction entries as [|[entry|] entries IH]; intros i0; cbn [collect_likes].
  - split; [by intros ?%elem_of_nil|]. by intros (j & entry & Hj & _).
  - assert (e ∈ collect_likes (i0 + 1) entries
            ↔ ∃ j entry', entries !! j = Some (Some entry')
                          ∧ LikeEntry.title (like_of (i0 + Z.of_nat (S j)) entry') ≠ []
                          ∧ e = like_of (i0 + Z.of_nat (S j)) entry') as Htail.
    { rewrite IH. split; intros (j & en & Hj & Ht & He); exists j, en;
        replace (i0 + Z.of_nat (S j)) with (i0 + 1 + Z.of_nat j) in * by lia; done. }
    destruct (py_strip (or_str (PayloadEntry.title entry) [])) as [|c title] eqn:Hs.
    + rewrite Htail. split.
      * intros (j & en & Hj & Ht & He). by exists (S j), en.
      * intros ([|j] & en & Hj & Ht & He); [|by exists j, en].
        cbn in Hj. injection Hj as <-. cbn in Ht. by rewrite Hs in Ht.
    + rewrite elem_of_cons, Htail. split.
      * intros [->|(j & en & Hj & Ht & He)]; [|by exists (S j), en].
        exists 0%nat, entry. replace (i0 + Z.of_nat 0) with i0 by lia.
        unfold like_of. rewrite Hs. done.
      * intros ([|j] & en & Hj & Ht & He); [|right; by exists j, en].
        left. cbn in Hj. injection Hj as <-.
        replace (i0 + Z.of_nat 0) with i0 in He by lia.
        unfold like_of in He. by rewrite Hs in He.
  - rewrite IH. split.
    + intros (j & en & Hj & Ht & He). exists (S j), en.
      replace (i0 + Z.of_nat (S j)) with (i0 + 1 + Z.of_nat j) by lia. done.
    + intros ([|j] & en & Hj & Ht & He); [done|]. exists j, en.
      replace (i0 + Z.of_nat (S j)) with (i0 + 1 + Z.of_nat j) in * by lia. done.
Qed.

(** X7. When [fetch_likes] returns, the likes are exactly the payload
    entries that are not null and have a title that is non-empty after
    stripping, in payload order; the index of a like is the 1-based
    position of its entry in the payload, so skipped entries leave gaps
    in the indices, which ascend strictly; and a like's title neither
    starts nor ends with whitespace. *)
Theorem fetch_likes_positions entries likes :
  fetch_likes entries = Ok likes →
  StronglySorted (λ a b, LikeEntry.index a < LikeEntry.index b) likes
  ∧ (∀ e, e ∈ likes
          ↔ ∃ j entry, entries !! j = Some (Some entry)
                       ∧ py_strip (or_str (PayloadEntry.title entry) []) ≠ []
                       ∧ e = like_of (1 + Z.of_nat j) entry)
  ∧ (∀ e, e ∈ likes →
          1 ≤ LikeEntry.index e ≤ Z.of_nat (length entries)
          ∧ LikeEntry.title e ≠ []
          ∧ (∀ c, head (LikeEntry.title e) = Some c → isspace c = false)
          ∧ (∀ c, last (LikeEntry.title e) = Some c → isspace c = false)).
Proof.
  intros Hf. destruct (fetch_likes_cases entries) as [[Hc Hf']|[Hc Hf']];
    rewrite Hf' in Hf; [done|]. injection Hf as <-.
  split_and!.
  - apply collect_likes_sorted.
  - intros e. apply collect_likes_elem_of.
  - intros e He. apply collect_likes_elem_of in He as (j & entry & Hj & Ht & ->).
    cbn. split_and!.
    + lia.
    + apply lookup_lt_Some in Hj. lia.
    + exact Ht.
    + intros c. apply py_strip_ends.
    + intros c. apply py_strip_ends.
Qed.

Lemma fetch_likes_positions_witness :
  ∃ likes,
    fetch_likes ex_gap_entries = Ok likes
    ∧ (LikeEntry.index <$> likes) = [1; 4]
    ∧ StronglySorted (λ a b, LikeEntry.index a < LikeEntry.index b) likes.
Proof.
  destruct (fetch_likes ex_gap_entries) as [likes|e] eqn:Hf; [|by vm_compute in Hf].
  exists likes. split; [done|]. split.
  - vm_compute in Hf. injection Hf as <-. reflexivity.
  - apply (fetch_likes_positions ex_gap_entries likes Hf).
Defined.

Lemma head_filter_Some {A} (P : A → Prop) `{∀ x, Decision (P x)} (l : list A) x :
  head (filter P l) = Some x → x ∈ l ∧ P x.
Proof.
  intros Hh. assert (x ∈ filter P l) as Hin.
  { destruct (filter P l); [done|]. injection Hh as ->. by left. }
  by apply list_elem_of_filter in Hin as [HP Hl].
Qed.

Lemma head_filter_is_Some {A} (P : A → Prop) `{∀ x, Decision (P x)} (l : list A) x :
  x ∈ l → P x → is_Some (head (filter P l)).
Proof.
  intros Hl HP. assert (x ∈ filter P l) as Hin by by apply list_elem_of_filter.
  destruct (filter P l); [by apply elem_of_nil in Hin|]. by eexists.
Qed.

Section IndexAndMatcher.
Context `{UnicodeData}.
Implicit Types (likes : list LikeEntry.t) (row : DjmdContent.t).

Lemma build_exact_lookup likes t :
  (build_likes_maps likes).1 !! t = head (filter (λ e, LikeEntry.title e = t) likes).
Proof. unfold build_likes_maps. by rewrite index_fold_exact, lookup_empty. Qed.

Lemma build_norm_lookup likes k :
  (build_likes_maps likes).2 !! k
  = if decide (k = []) then None
    else head (filter (λ e, normalize_title (LikeEntry.title e) = k) likes).
Proof. unfold build_likes_maps. by rewrite index_fold_norm, lookup_empty. Qed.

(** X8. In the dictionaries of [build_likes_maps] every value is an
    entry of the list filed under its own key: [by_exact] binds a title
    exactly when some entry bears it, to an entry with that title;
    [by_norm] binds a key exactly when it is the non-empty normalised
    title of some entry, to an entry that normalises to it. *)
Theorem build_likes_maps_coherent likes :
  (∀ t e, (build_likes_maps likes).1 !! t = Some e →
          e ∈ likes ∧ LikeEntry.title e = t)
  ∧ (∀ t, is_Some ((build_likes_maps likes).1 !! t)
          ↔ ∃ e, e ∈ likes ∧ LikeEntry.title e = t)
  ∧ (∀ k e, (build_likes_maps likes).2 !! k = Some e →
            e ∈ likes ∧ normalize_title (LikeEntry.title e) = k ∧ k ≠ [])
  ∧ (∀ k, is_Some ((build_likes_maps likes).2 !! k)
          ↔ k ≠ [] ∧ ∃ e, e ∈ likes ∧ normalize_title (LikeEntry.title e) = k).
Proof.
  split_and!.
  - intros t e. rewrite build_exact_lookup. intros He.
    by apply head_filter_Some in He as [He Ht].
  - intros t. rewrite build_exact_lookup. split.
    + intros [e He]. exists e. by apply head_filter_Some in He.
    + intros (e & He & Ht). by eapply head_filter_is_Some.
  - intros k e. rewrite build_norm_lookup. case_decide; [done|].
    intros He. apply head_filter_Some in He as [He Hk]. done.
  - intros k. rewrite build_norm_lookup. case_decide as Hk.
    + split; [by intros []|]. by intros [Hne _].
    + split.
      * intros [e He]. split; [done|]. exists e. by apply head_filter_Some in He.
      * intros [_ (e & He & Hn)].
        by apply (head_filter_is_Some (λ e, normalize_title (LikeEntry.title e) = k) likes e).
Qed.

(** X9. Index and matcher together, exact pass: a row whose title is
    the title of some like is matched, in mode ["exact"], to the first
    like of the list that bears this title, whatever its file name and
    whatever the normalised dictionary holds. *)
Theorem title_matches_first_like likes row e :
  truthy (DjmdContent.Title row) = true →
  head (filter (λ e, LikeEntry.title e = py_str (DjmdContent.Title row)) likes)
  = Some e →
  row_outcome (build_likes_maps likes).1 (build_likes_maps likes).2 row
  = inl (match_of row e (lit "exact"))
  ∧ match_rows_to_likes [row] (build_likes_maps likes).1 (build_likes_maps likes).2
    = ([match_of row e (lit "exact")], []).
Proof.
  intros Htitle He.
  assert (row_outcome (build_likes_maps likes).1 (build_likes_maps likes).2 row
          = inl (match_of row e (lit "exact"))) as Hrow.
  { assert (find_local_title row = py_str (DjmdContent.Title row)) as Hlt
      by (unfold find_local_title; by rewrite Htitle).
    unfold row_outcome, match_of, lookup_candidates, candidates_of.
    rewrite !Hlt. cbn [scan_exact]. by rewrite build_exact_lookup, He. }
  split; [exact Hrow|]. by rewrite match_rows_outcomes, fmap_cons, Hrow.
Qed.

(** X10. Index and matcher together, normalised pass: a row with a
    title whose title and file stem are the title of no like, and whose
    normalised title is non-empty and is the normalised title of some
    like, is matched by [match_rows_to_likes], in mode ["normalized"],
    to the first like of the list with that normalised title, and is
    not reported unmatched. *)
Theorem normalized_title_matches_first_like likes row e :
  truthy (DjmdContent.Title row) = true →
  (∀ e', e' ∈ likes →
         LikeEntry.title e' ≠ py_str (DjmdContent.Title row)
         ∧ LikeEntry.title e' ≠ path_stem (py_str (DjmdContent.FolderPath row))) →
  normalize_title (py_str (DjmdContent.Title row)) ≠ [] →
  head (filter (λ e, normalize_title (LikeEntry.title e)
                     = normalize_title (py_str (DjmdContent.Title row))) likes)
  = Some e →
  row_outcome (build_likes_maps likes).1 (build_likes_maps likes).2 row
  = inl (match_of row e (lit "normalized"))
  ∧ match_rows_to_likes [row] (build_likes_maps likes).1 (build_likes_maps likes).2
    = ([match_of row e (lit "normalized")], []).
Proof.
  intros Htitle Hmiss Hne He.
  assert (row_outcome (build_likes_maps likes).1 (build_likes_maps likes).2 row
          = inl (match_of row e (lit "normalized"))) as Hrow;
    [|split; [exact Hrow|]; by rewrite match_rows_outcomes, fmap_cons, Hrow].
  assert (∀ t, (∀ e', e' ∈ likes → LikeEntry.title e' ≠ t) →
               (build_likes_maps likes).1 !! t = None) as Hnone.
  { intros t Ht. rewrite build_exact_lookup.
    destruct (head (filter (λ e0, LikeEntry.title e0 = t) likes)) as [e'|] eqn:Hh;
      [|done].
    apply head_filter_Some in Hh as [Hin Heq]. by destruct (Ht e' Hin). }
  assert (find_local_title row = py_str (DjmdContent.Title row)) as Hlt
    by (unfold find_local_title; by rewrite Htitle).
  unfold row_outcome, match_of, lookup_candidates, candidates_of.
  rewrite !Hlt. cbn [scan_exact].
  rewrite !Hnone by (intros e' He'; by destruct (Hmiss e' He')).
  cbn [scan_norm].
  destruct (normalize_title (py_str (DjmdContent.Title row))) as [|c k] eqn:Hk; [done|].
  rewrite build_norm_lookup, decide_False by done. by rewrite He.
Qed.

Lemma row_outcome_matched likes row m :
  row_outcome (build_likes_maps likes).1 (build_likes_maps likes).2 row = inl m →
  ∃ e mode,
    e ∈ likes ∧ m = match_of row e mode
    ∧ ((mode = lit "exact"
        ∧ ∃ c, c ∈ candidates_of row ∧ LikeEntry.title e = c)
       ∨ (mode = lit "normalized"
          ∧ ∃ c, c ∈ candidates_of row
                 ∧ normalize_title (LikeEntry.title e) = normalize_title c
                 ∧ normalize_title c ≠ [])).
Proof.
  unfold row_outcome, lookup_candidates.
  destruct (scan_exact _ (candidates_of row)) as [item|] eqn:Hexact.
  - intros [= <-]. exists item, (lit "exact"). rewrite scan_exact_head in Hexact.
    assert (item ∈ omap (λ c, (build_likes_maps likes).1 !! c) (candidates_of row))
      as Hin.
    { destruct (omap _ (candidates_of row)); [done|]. injection Hexact as ->. by left. }
    apply list_elem_of_omap in Hin as (c & Hc & Hlook).
    rewrite build_exact_lookup in Hlook. apply head_filter_Some in Hlook as [Hl Ht].
    split_and!; [done|done|]. left. split; [done|]. by exists c.
  - destruct (scan_norm _ (candidates_of row)) as [item|] eqn:Hnorm; [|done].
    intros [= <-]. exists item, (lit "normalized"). rewrite scan_norm_head in Hnorm.
    assert (item ∈ omap (norm_lookup (build_likes_maps likes).2) (candidates_of row))
      as Hin.
    { destruct (omap _ (candidates_of row)); [done|]. injection Hnorm as ->. by left. }
    apply list_elem_of_omap in Hin as (c & Hc & Hlook). unfold norm_lookup in Hlook.
    destruct (normalize_title c) as [|d k] eqn:Hk; [done|].
    rewrite build_norm_lookup, decide_False in Hlook by done.
    apply head_filter_Some in Hlook as [Hl Ht].
    split_and!; [done|done|]. right. split; [done|]. exists c.
    rewrite Hk. done.
Qed.

(** X11. Every [Match] that [match_rows_to_likes] builds from the
    dictionaries of a list of likes carries the index, id, title and URL
    of one entry of that list and the path, title and old timestamp of
    one of the rows; its mode is ["exact"] or ["normalized"] and it has
    no new timestamp yet. *)
Theorem matches_drawn_from_likes likes rows m :
  m ∈ (match_rows_to_likes rows (build_likes_maps likes).1 (build_likes_maps likes).2).1 →
  ∃ row e mode,
    row ∈ rows ∧ e ∈ likes ∧ m = match_of row e mode
    ∧ ((mode = lit "exact"
        ∧ ∃ c, c ∈ candidates_of row ∧ LikeEntry.title e = c)
       ∨ (mode = lit "normalized"
          ∧ ∃ c, c ∈ candidates_of row
                 ∧ normalize_title (LikeEntry.title e) = normalize_title c
                 ∧ normalize_title c ≠ [])).
Proof.
  rewrite match_rows_outcomes. cbn [fst]. rewrite elem_of_lefts, list_elem_of_fmap.
  intros (row & Hrow & Hin). symmetry in Hrow.
  destruct (row_outcome_matched likes row m Hrow) as (e & mode & He & Hm & Hmode).
  by exists row, e, mode.
Qed.

(** X12. The guard of line 170 ([norm and norm in by_norm]): a
    candidate whose normal form is empty is never looked up, so an
    empty key in [by_norm] is never consulted, and a row all of whose
    candidates normalise to the empty string is unmatched unless a
    candidate is an exact key. *)
Theorem empty_norm_never_matches (by_exact by_norm : gmap str LikeEntry.t) :
  (∀ cs, lookup_candidates by_exact by_norm cs
         = lookup_candidates by_exact (delete ([] : str) by_norm) cs)
  ∧ (∀ cs, (∀ c, c ∈ cs → normalize_title c = []) → scan_norm by_norm cs = None)
  ∧ (∀ row,
       (∀ c, c ∈ candidates_of row → normalize_title c = [] ∧ by_exact !! c = None) →
       ∃ x, row_outcome by_exact by_norm row = inr x).
Proof.
  assert (∀ cs, (∀ c, c ∈ cs → normalize_title c = []) → scan_norm by_norm cs = None)
    as Hempty.
  { intros cs Hcs. apply scan_norm_None. intros c Hc. unfold norm_lookup.
    by rewrite (Hcs c Hc). }
  split_and!.
  - intros cs. unfold lookup_candidates. destruct (scan_exact by_exact cs); [done|].
    assert (scan_norm by_norm cs = scan_norm (delete ([] : str) by_norm) cs) as ->; [|done].
    induction cs as [|c cs IH]; [done|]. cbn.
    destruct (normalize_title c) as [|d k]; [exact IH|].
    rewrite lookup_delete_ne by done. by rewrite IH.
  - exact Hempty.
  - intros row Hrow. eexists. apply row_outcome_unmatched. split; [done|].
    intros c Hc. destruct (Hrow c Hc) as [Hn He]. split; [done|].
    unfold norm_lookup. by rewrite Hn.
Qed.

End IndexAndMatcher.

Lemma build_likes_maps_coherent_witness :
  ∃ e, (build_likes_maps ex_likes).1 !! lit "B" = Some e
       ∧ e ∈ ex_likes ∧ LikeEntry.title e = lit "B".
Proof.
  destruct ((build_likes_maps ex_likes).1 !! lit "B") as [e|] eqn:He;
    [|by vm_compute in He].
  exists e. split; [done|].
  destruct (build_likes_maps_coherent ex_likes) as (Hexact & _).
  exact (Hexact (lit "B") e He).
Defined.

Lemma title_matches_first_like_witness :
  row_outcome (build_likes_maps ex_likes).1 (build_likes_maps ex_likes).2
              (ex_row "track2.mp3" "A")
  = inl (match_of (ex_row "track2.mp3" "A")
           (LikeEntry.mk 1 (lit "101") (lit "A") (lit "https://soundcloud.com/u/a"))
           (lit "exact")).
Proof.
  apply (title_matches_first_like ex_likes (ex_row "track2.mp3" "A")).
  - reflexivity.
  - vm_compute. reflexivity.
Defined.

Lemma normalized_title_matches_first_like_witness :
  match_rows_to_likes [ex_row "track1.mp3" "b"]
                      (build_likes_maps ex_likes).1 (build_likes_maps ex_likes).2
  = ([match_of (ex_row "track1.mp3" "b")
        (LikeEntry.mk 2 (lit "102") (lit "B") (lit "https://soundcloud.com/u/b"))
        (lit "normalized")], []).
Proof.
  apply (normalized_title_matches_first_like ex_likes (ex_row "track1.mp3" "b")).
  - reflexivity.
  - apply Forall_forall. apply (bool_decide_unpack _). vm_compute. exact I.
  - vm_compute. discriminate.
  - vm_compute. reflexivity.
Defined.

Lemma matches_drawn_from_likes_witness :
  ∃ m row e mode,
    fst ex_match !! 0%nat = Some m
    ∧ row ∈ ex_rows ∧ e ∈ ex_likes ∧ m = match_of row e mode.
Proof.
  destruct (fst ex_match !! 0%nat) as [m|] eqn:Hm; [|by vm_compute in Hm].
  destruct (matches_drawn_from_likes ex_likes ex_rows m)
    as (row & e & mode & Hrow & He & Hmatch & _).
  { by eapply list_elem_of_lookup_2. }
  exists m, row, e, mode. split_and!; [reflexivity|exact Hrow|exact He|exact Hmatch].
Defined.

Lemma empty_norm_never_matches_witness :
  scan_norm {[ ([] : str) := LikeEntry.mk 1 [] [] [] ]} [lit "  "; []] = None.
Proof.
  apply (empty_norm_never_matches ∅ {[ ([] : str) := LikeEntry.mk 1 [] [] [] ]}).
  intros c. rewrite !elem_of_cons, elem_of_nil.
  intros [->|[->|[]]]; vm_compute; reflexivity.
Defined.

(** ** The shape of a normalised title *)

Lemma py_join_words_space ws c :
  Forall word ws → c ∈ py_join (lit " ") ws → isspace c = true → c = 0x20%N.
Proof.
  induction 1 as [|w ws [Hne Hw] Hws IH]; [by intros ?%elem_of_nil|].
  destruct ws as [|w' ws].
  - cbn. intros Hc Hs. unfold nospace in Hw. rewrite Forall_forall in Hw. rewrite (Hw c Hc) in Hs. done.
  - change (py_join (lit " ") (w :: w' :: ws))
      with (w ++ lit " " ++ py_join (lit " ") (w' :: ws)).
    rewrite !elem_of_app. intros [Hc|[Hc|Hc]] Hs.
    + unfold nospace in Hw. rewrite Forall_forall in Hw. rewrite (Hw c Hc) in Hs. done.
    + apply elem_of_cons in Hc as [->|Hc]; [done|by apply elem_of_nil in Hc].
    + by apply IH.
Qed.

Lemma py_join_words_head ws c :
  Forall word ws → head (py_join (lit " ") ws) = Some c → isspace c = false.
Proof.
  intros [|w ws' [Hne Hw] Hws]; [done|].
  assert (head (py_join (lit " ") (w :: ws')) = head w) as ->.
  { destruct ws'; [done|]. destruct w; [done|]. done. }
  destruct w as [|d w]; [done|]. cbn. intros [= <-]. unfold nospace in Hw. by inversion Hw.
Qed.

Lemma py_join_words_last ws c :
  Forall word ws → last (py_join (lit " ") ws) = Some c → isspace c = false.
Proof.
  induction 1 as [|w ws [Hne Hw] Hws IH]; [done|].
  unfold nospace in Hw. rewrite Forall_forall in Hw.
  destruct ws as [|w' ws].
  - cbn. intros Hl. apply last_Some in Hl as [l' ->]. apply Hw.
    apply elem_of_app. right. by left.
  - change (py_join (lit " ") (w :: w' :: ws))
      with (w ++ lit " " ++ py_join (lit " ") (w' :: ws)).
    rewrite !last_app.
    destruct (last (py_join (lit " ") (w' :: ws))) as [x|] eqn:Hx.
    + intros [= <-]. by apply IH.
    + exfalso. apply last_None in Hx. inversion Hws as [|? ? [Hne' _] _].
      destruct w'; [done|]. by destruct ws.
Qed.

Section Shape.
Context `{UnicodeData}.

(** X13. Whatever NFKC and lower-casing do, a normalised title is the
    words of the lower-cased text joined by single spaces: the [strip]
    of line 60 adds nothing to [split], splitting the key and joining it
    again gives the key back, the key neither starts nor ends with
    whitespace, and its only whitespace code point is U+0020. *)
Theorem normalize_title_shape raw :
  normalize_title raw
  = py_join (lit " ")
      (py_split (str_lower (replace_char FULLWIDTH_COLON (lit ":") (normalize_NFKC raw))))
  ∧ Forall word (py_split (normalize_title raw))
  ∧ py_join (lit " ") (py_split (normalize_title raw)) = normalize_title raw
  ∧ (∀ c, c ∈ normalize_title raw → isspace c = true → c = 0x20%N)
  ∧ (∀ c, head (normalize_title raw) = Some c → isspace c = false)
  ∧ (∀ c, last (normalize_title raw) = Some c → isspace c = false).
Proof.
  assert (Forall word
            (py_split (str_lower (replace_char FULLWIDTH_COLON (lit ":")
                                    (normalize_NFKC raw))))) as Hws
    by (apply split_from_words; constructor).
  assert (normalize_title raw
          = py_join (lit " ")
              (py_split (str_lower (replace_char FULLWIDTH_COLON (lit ":")
                                      (normalize_NFKC raw))))) as Heq
    by (unfold normalize_title; cbn zeta; by rewrite split_strip).
  split_and!.
  - exact Heq.
  - apply split_from_words. constructor.
  - rewrite Heq at 1. by rewrite split_join.
  - intros c. rewrite Heq. by apply py_join_words_space.
  - intros c. rewrite Heq. by apply py_join_words_head.
  - intros c. rewrite Heq. by apply py_join_words_last.
Qed.

End Shape.

(** ** Keys of Basic Latin titles *)

Lemma decompose_fold_colon x :
  Forall plain x → x ≫= decompose = fold_colon <$> x.
Proof.
  induction 1 as [|c x Hc Hx IH]; [done|].
  rewrite bind_cons, fmap_cons, IH. unfold decompose, fold_colon.
  destruct (decide (c = FULLWIDTH_COLON)) as [|Hne]; [done|].
  destruct Hc as [Hc|Hc]; [|done]. by rewrite base_of_basic.
Qed.

Lemma fold_colon_basic x : Forall plain x → Forall basic (fold_colon <$> x).
Proof.
  intros Hx. rewrite <- decompose_fold_colon by done. by apply decompose_plain.
Qed.

Lemma normalize_title_basic x :
  Forall plain x →
  normalize_title x
  = py_join (lit " ") (py_split (lower1 <$> (fold_colon <$> x))).
Proof.
  intros Hx. destruct (normalize_title_shape x) as [-> _].
  cbn [normalize_NFKC str_lower latin_caron].
  rewrite decompose_fold_colon by done.
  rewrite compose_basic by by apply fold_colon_basic.
  by rewrite replace_colon_basic by by apply fold_colon_basic.
Qed.

Lemma lower1_idem c : basic c → lower1 (lower1 c) = lower1 c.
Proof. intros Hc. by apply lower1_basic_lower, lower1_basic. Qed.

(** X14. On titles of Basic Latin characters and full-width colons the
    key ignores ASCII case and the colon variant: it is a function of
    the lower-cased title with every full-width colon replaced by an
    ASCII colon, so two such titles that agree after this folding have
    the same key, and a title and its lower-cased form have the same
    key. *)
Theorem normalize_title_case_insensitive x y :
  Forall plain x → Forall plain y →
  lower1 <$> (fold_colon <$> x) = lower1 <$> (fold_colon <$> y) →
  normalize_title x = normalize_title y
  ∧ normalize_title (lower1 <$> (fold_colon <$> x)) = normalize_title x.
Proof.
  intros Hx Hy Heq. split.
  - by rewrite !normalize_title_basic, Heq.
  - pose proof (fold_colon_basic x Hx) as Hb.
    assert (Forall basic (lower1 <$> (fold_colon <$> x))) as Hl.
    { apply Forall_fmap. eapply Forall_impl; [exact Hb|]. intros c Hc.
      by destruct (lower1_basic c Hc). }
    assert (Forall plain (lower1 <$> (fold_colon <$> x))) as Hp.
    { eapply Forall_impl; [exact Hl|]. intros c Hc. by left. }
    rewrite (normalize_title_basic _ Hp), (normalize_title_basic x Hx). do 2 f_equal.
    clear Hl Hp Heq. induction Hb as [|c l Hc Hb IH]; [done|].
    rewrite !fmap_cons, IH. f_equal.
    assert (fold_colon (lower1 c) = lower1 c) as ->.
    { unfold fold_colon. rewrite decide_False; [done|].
      destruct (lower1_basic c Hc) as [Hlb _]. unfold basic, FULLWIDTH_COLON in *. lia. }
    by apply lower1_idem.
Qed.

Lemma normalize_title_case_insensitive_witness :
  normalize_title (lit "Foo" ++ [FULLWIDTH_COLON] ++ lit "Bar")
  = normalize_title (lit "fOO:bAR").
Proof.
  apply (normalize_title_case_insensitive
           (lit "Foo" ++ [FULLWIDTH_COLON] ++ lit "Bar") (lit "fOO:bAR")).
  - apply (bool_decide_unpack _). vm_compute. exact I.
  - apply (bool_decide_unpack _). vm_compute. exact I.
  - vm_compute. reflexivity.
Defined.

Lemma normalize_title_shape_witness :
  isspace 0x66 = false
  ∧ py_split (normalize_title (lit "  FOO:  BAR ")) = [lit "foo:"; lit "bar"].
Proof.
  destruct (normalize_title_shape (lit "  FOO:  BAR ")) as (_ & _ & _ & _ & Hhead & _).
  split; [apply Hhead|]; vm_compute; reflexivity.
Defined.

(** ** The title taken from the file name *)

Lemma split_on_nosep sep cur t :
  sep ∉ t → split_on sep cur t = [cur ++ t].
Proof.
  revert cur. induction t as [|c t IH]; intros cur Ht; cbn.
  - by rewrite app_nil_r.
  - rewrite not_elem_of_cons in Ht. destruct Ht as [Hc Ht].
    rewrite decide_False by done. rewrite IH by done. by rewrite <- app_assoc.
Qed.

Lemma split_on_last sep cur s tail :
  sep ∉ tail → ∃ parts, split_on sep cur (s ++ sep :: tail) = parts ++ [tail].
Proof.
  intros Ht. revert cur. induction s as [|c s IH]; intros cur; cbn.
  - rewrite decide_True by done. exists [cur]. by rewrite split_on_nosep.
  - destruct (decide (c = sep)).
    + destruct (IH []) as [parts ->]. by exists (cur :: parts).
    + apply IH.
Qed.

Lemma path_name_last s tail :
  SLASH ∉ tail → tail ≠ [] → tail ≠ [DOT] →
  path_name (s ++ SLASH :: tail) = tail.
Proof.
  intros Hs Hne Hdot. unfold path_name.
  destruct (split_on_last SLASH [] s tail Hs) as [parts ->].
  rewrite filter_app, filter_cons, decide_True by done.
  rewrite filter_nil, last_snoc. done.
Qed.

Lemma rfind_None c s : c ∉ s → rfind c s = None.
Proof.
  induction s as [|d s IH]; [done|]. rewrite not_elem_of_cons. intros [Hd Hs].
  cbn. rewrite IH by done. by rewrite decide_False.
Qed.

Lemma rfind_last c a b : c ∉ b → rfind c (a ++ c :: b) = Some (length a).
Proof.
  intros Hb. induction a as [|d a IH]; cbn.
  - rewrite rfind_None by done. by rewrite decide_True.
  - by rewrite IH.
Qed.

Section LocalTitle.
Context `{UnicodeData}.

(** X15. The title derived from the path: for a row without title (or
    with an empty one) whose path is [dir/name.ext], with a non-empty
    [name] free of slashes and a non-empty [ext] free of slashes and
    dots, the stem of the path and the local title are [name], dots
    inside [name] included, and [match_rows_to_likes] looks such a row
    up, in any two dictionaries, under the candidates [name], [name];
    a row with a non-empty title has that title as local title, kept in
    its [Match] or [Unmatched] record, and [match_rows_to_likes] looks
    it up under the title first and the file name second. *)
Theorem local_title_from_path dir name ext title created :
  name ≠ [] → SLASH ∉ name → ext ≠ [] → SLASH ∉ ext → DOT ∉ ext →
  path_stem (dir ++ [SLASH] ++ name ++ [DOT] ++ ext) = name
  ∧ find_local_title (untitled_row dir name ext) = name
  ∧ find_local_title
      (DjmdContent.mk (Some (dir ++ [SLASH] ++ name ++ [DOT] ++ ext)) (Some []) created)
    = name
  ∧ (∀ by_exact by_norm,
       match_rows_to_likes [untitled_row dir name ext] by_exact by_norm
       = outcome_lists (untitled_row dir name ext)
           (lookup_candidates by_exact by_norm [name; name]))
  ∧ (∀ by_exact by_norm,
       match_rows_to_likes
         [DjmdContent.mk (Some (dir ++ [SLASH] ++ name ++ [DOT] ++ ext)) (Some [])
                         created] by_exact by_norm
       = outcome_lists
           (DjmdContent.mk (Some (dir ++ [SLASH] ++ name ++ [DOT] ++ ext)) (Some [])
                           created)
           (lookup_candidates by_exact by_norm [name; name]))
  ∧ (title ≠ [] →
     let row := DjmdContent.mk (Some (dir ++ [SLASH] ++ name ++ [DOT] ++ ext))
                               (Some title) created in
     find_local_title row = title
     ∧ (∀ by_exact by_norm,
          match_rows_to_likes [row] by_exact by_norm
          = outcome_lists row (lookup_candidates by_exact by_norm [title; name]))
     ∧ (∀ by_exact by_norm,
          Forall (λ m, Match.local_title m = title)
                 (match_rows_to_likes [row] by_exact by_norm).1
          ∧ Forall (λ u, Unmatched.local_title u = title)
                   (match_rows_to_likes [row] by_exact by_norm).2)).
Proof.
  intros Hname Hns Hext Hes Hed.
  assert (path_stem (dir ++ [SLASH] ++ name ++ [DOT] ++ ext) = name) as Hstem.
  { unfold path_stem. cbn [app]. rewrite path_name_last.
    - rewrite rfind_last by done. rewrite decide_True.
      + by rewrite take_app_length.
      + rewrite length_app. cbn. destruct name; [done|]. destruct ext; [done|].
        cbn. lia.
    - rewrite not_elem_of_app, not_elem_of_cons. split_and!; [done| |done].
      unfold SLASH, DOT. done.
    - by destruct name.
    - destruct name as [|c [|c' name]]; [done| |done]. by destruct ext. }
  split_and!.
  - exact Hstem.
  - unfold find_local_title, untitled_row. cbn. exact Hstem.
  - unfold find_local_title. cbn. exact Hstem.
  - intros by_exact by_norm. rewrite match_rows_single. f_equal. f_equal.
    exact (f_equal2 (λ a b, [a; b]) Hstem Hstem).
  - intros by_exact by_norm. rewrite match_rows_single. f_equal. f_equal.
    exact (f_equal2 (λ a b, [a; b]) Hstem Hstem).
  - intros Htitle row.
    assert (find_local_title row = title) as Hlt by (by destruct title).
    assert (candidates_of row = [title; name]) as Hcs.
    { destruct title as [|c title]; [done|].
      exact (f_equal (λ a, [c :: title; a]) Hstem). }
    split_and!.
    + exact Hlt.
    + intros by_exact by_norm. by rewrite match_rows_single, Hcs.
    + intros by_exact by_norm. rewrite match_rows_single.
      destruct (lookup_candidates by_exact by_norm (candidates_of row))
        as [[item mode]|]; cbn [outcome_lists fst snd].
      * split; [|by apply Forall_nil]. apply Forall_cons. split; [|by apply Forall_nil].
        exact Hlt.
      * split; [by apply Forall_nil|]. apply Forall_cons. split; [|by apply Forall_nil].
        exact Hlt.
Qed.

End LocalTitle.

Lemma local_title_from_path_witness :
  match_rows_to_likes
    [untitled_row (lit "/Music/sc") (lit "Artist - Song v1.2") (lit "mp3")]
    (build_likes_maps ex_likes).1 (build_likes_maps ex_likes).2
  = outcome_lists
      (untitled_row (lit "/Music/sc") (lit "Artist - Song v1.2") (lit "mp3"))
      (lookup_candidates (build_likes_maps ex_likes).1 (build_likes_maps ex_likes).2
         [lit "Artist - Song v1.2"; lit "Artist - Song v1.2"]).
Proof.
  destruct (local_title_from_path (lit "/Music/sc") (lit "Artist - Song v1.2")
              (lit "mp3") [] None) as (_ & _ & _ & Hrun & _).
  - discriminate.
  - apply (bool_decide_unpack _). vm_compute. exact I.
  - discriminate.
  - apply (bool_decide_unpack _). vm_compute. exact I.
  - apply (bool_decide_unpack _). vm_compute. exact I.
  - exact (Hrun _ _).
Defined.

(** ** What the sub-second fix leaves alone *)

Lemma fields_of_whole_second q us :
  0 ≤ us < US_PER_SECOND →
  fields_of (q * US_PER_SECOND + us)
  = let '(y, m, d) := ord2ymd (q `div` 86400 + 1) in
    let secs := q `mod` 86400 in
    Fields y m d (secs `div` 3600) ((secs `mod` 3600) `div` 60) (secs `mod` 60) us.
Proof.
  intros Hus. unfold fields_of, US_PER_DAY.
  assert ((q * US_PER_SECOND + us) `div` (86400 * US_PER_SECOND) = q `div` 86400) as Hd.
  { rewrite (Z.mul_comm 86400), <- Z.div_div by (unfold US_PER_SECOND; lia).
    rewrite Z.div_add_l by (unfold US_PER_SECOND; lia).
    rewrite (Z.div_small us) by done. by rewrite Z.add_0_r. }
  assert ((q * US_PER_SECOND + us) `mod` (86400 * US_PER_SECOND)
          = (q `mod` 86400) * US_PER_SECOND + us) as Hm.
  { rewrite Z.mod_eq by (unfold US_PER_SECOND; lia). rewrite Hd.
    rewrite (Z.mod_eq q 86400) by lia. lia. }
  rewrite Hd, Hm.
  rewrite Z.div_add_l by (unfold US_PER_SECOND; lia).
  rewrite (Z.div_small us) by done. rewrite Z.add_0_r.
  rewrite (Z.add_comm _ us), Z.mod_add by (unfold US_PER_SECOND; lia).
  by rewrite (Z.mod_small us).
Qed.

Lemma zero_padded_length width n : length (zero_padded width n) = width.
Proof.
  revert n. induction width as [|w IH]; intros n; [done|]. cbn.
  rewrite length_app, IH. cbn. lia.
Qed.

(** X16. [ensure_millis_precision] touches the microsecond field only:
    a timestamp with fractional seconds is returned as it is, a
    whole-second timestamp is moved forward by 0.9 s within its second,
    so year, month, day, hour, minute and second stay the same; for a
    timestamp of the years 1000 to 9999, where [%Y] prints four digits
    on every platform, [format_dt] then prints the same first 20
    characters followed by [900000]. *)
Theorem ensure_millis_precision_same_second dt :
  (microsecond dt ≠ 0 → ensure_millis_precision dt = dt)
  ∧ (microsecond dt = 0 → ensure_millis_precision dt = dt + 900000)
  ∧ dt ≤ ensure_millis_precision dt < dt + US_PER_SECOND
  ∧ ensure_millis_precision dt `div` US_PER_SECOND = dt `div` US_PER_SECOND
  ∧ f_year (fields_of (ensure_millis_precision dt)) = f_year (fields_of dt)
  ∧ f_month (fields_of (ensure_millis_precision dt)) = f_month (fields_of dt)
  ∧ f_day (fields_of (ensure_millis_precision dt)) = f_day (fields_of dt)
  ∧ f_hour (fields_of (ensure_millis_precision dt)) = f_hour (fields_of dt)
  ∧ f_minute (fields_of (ensure_millis_precision dt)) = f_minute (fields_of dt)
  ∧ f_second (fields_of (ensure_millis_precision dt)) = f_second (fields_of dt)
  ∧ (microsecond dt = 0 → dt_valid dt → 1000 ≤ f_year (fields_of dt) →
     format_dt (Some (ensure_millis_precision dt))
     = take 20 (format_dt (Some dt)) ++ lit "900000").
Proof.
  destruct (decide (microsecond dt = 0)) as [Hz|Hnz].
  - destruct (ensure_millis_precision_whole dt Hz) as [Hfix _].
    assert (dt = (dt `div` US_PER_SECOND) * US_PER_SECOND + 0) as Hq.
    { unfold microsecond in Hz. pose proof (Z.div_mod dt US_PER_SECOND) as Hdm.
      unfold US_PER_SECOND in *. lia. }
    set (q := dt `div` US_PER_SECOND) in *.
    assert (ensure_millis_precision dt = q * US_PER_SECOND + 900000) as Hq'
      by (rewrite Hfix; lia).
    assert (fields_of (ensure_millis_precision dt)
            = let '(y, m, d) := ord2ymd (q `div` 86400 + 1) in
              let secs := q `mod` 86400 in
              Fields y m d (secs `div` 3600) ((secs `mod` 3600) `div` 60)
                     (secs `mod` 60) 900000) as Hf'
      by (rewrite Hq'; apply fields_of_whole_second; unfold US_PER_SECOND; lia).
    assert (fields_of dt
            = let '(y, m, d) := ord2ymd (q `div` 86400 + 1) in
              let secs := q `mod` 86400 in
              Fields y m d (secs `div` 3600) ((secs `mod` 3600) `div` 60)
                     (secs `mod` 60) 0) as Hf
      by (rewrite Hq at 1; apply fields_of_whole_second; unfold US_PER_SECOND; lia).
    split_and!.
    + by intros Hnz.
    + by intros _.
    + rewrite Hfix. lia.
    + rewrite Hfix. unfold US_PER_SECOND. lia.
    + rewrite Hq'. rewrite Z.div_add_l by (unfold US_PER_SECOND; lia).
      rewrite Z.div_small by (unfold US_PER_SECOND; lia). lia.
    + rewrite Hf', Hf. by destruct (ord2ymd _) as [[y m] d].
    + rewrite Hf', Hf. by destruct (ord2ymd _) as [[y m] d].
    + rewrite Hf', Hf. by destruct (ord2ymd _) as [[y m] d].
    + rewrite Hf', Hf. by destruct (ord2ymd _) as [[y m] d].
    + rewrite Hf', Hf. by destruct (ord2ymd _) as [[y m] d].
    + rewrite Hf', Hf. by destruct (ord2ymd _) as [[y m] d].
    + intros _ _ _. unfold format_dt. rewrite Hf', Hf.
      destruct (ord2ymd _) as [[y m] d]. cbn [f_year f_month f_day f_hour f_minute
                                               f_second f_microsecond].
      rewrite !(app_assoc _ _ (zero_padded 6 _)).
      rewrite take_app_length'; [done|].
      rewrite !length_app, !zero_padded_length. reflexivity.
  - rewrite (ensure_millis_precision_fixed dt Hnz).
    split_and!; try done; unfold US_PER_SECOND; lia.
Qed.

Lemma ensure_millis_precision_same_second_witness :
  format_dt (Some (ensure_millis_precision ex_anchor))
  = take 20 (format_dt (Some ex_anchor)) ++ lit "900000"
  ∧ format_dt (Some (ensure_millis_precision ex_anchor))
    = lit "2024-01-01 00:00:00.900000".
Proof.
  split.
  - apply (ensure_millis_precision_same_second ex_anchor).
    + vm_compute. reflexivity.
    + apply (bool_decide_unpack _). vm_compute. exact I.
    + vm_compute. discriminate.
  - vm_compute. reflexivity.
Defined.

(** ** The anchor *)

Section AnchorStages.
Variable strptime : str → str → Result datetime.

Lemma parse_formats_Ok raw formats dt :
  foldr (λ fmt next, match strptime raw fmt with Ok d => Ok d | Raise _ => next end)
        (Raise ValueError) formats = Ok dt
  ↔ ∃ i fmt, formats !! i = Some fmt ∧ strptime raw fmt = Ok dt
             ∧ ∀ j fmt', (j < i)%nat → formats !! j = Some fmt' →
                         raises (strptime raw fmt').
Proof.
  induction formats as [|f formats IH]; cbn [foldr].
  - split; [done|]. by intros (i & fmt & Hi & _).
  - destruct (strptime raw f) as [d|e] eqn:Hf.
    + split.
      * intros [= ->]. exists 0%nat, f. split_and!; [done..|]. intros j fmt' Hj. lia.
      * intros ([|i] & fmt & Hi & Hok & Hbefore).
        -- cbn in Hi. injection Hi as <-. congruence.
        -- destruct (Hbefore 0%nat f ltac:(lia) eq_refl) as [e He]. congruence.
    + rewrite IH. split.
      * intros (i & fmt & Hi & Hok & Hbefore). exists (S i), fmt. split_and!; [done..|].
        intros [|j] fmt' Hj Hfmt'.
        -- cbn in Hfmt'. injection Hfmt' as <-. by exists e.
        -- apply (Hbefore j); [lia|done].
      * intros ([|i] & fmt & Hi & Hok & Hbefore).
        -- cbn in Hi. injection Hi as <-. congruence.
        -- exists i, fmt. split_and!; [done..|]. intros j fmt' Hj Hfmt'.
           apply (Hbefore (S j)); [lia|done].
Qed.

Lemma parse_formats_Raise raw formats e :
  foldr (λ fmt next, match strptime raw fmt with Ok d => Ok d | Raise _ => next end)
        (Raise ValueError) formats = Raise e
  ↔ e = ValueError ∧ ∀ fmt, fmt ∈ formats → raises (strptime raw fmt).
Proof.
  induction formats as [|f formats IH]; cbn [foldr].
  - split; [intros [= <-]; split; [done|]; by intros fmt ?%elem_of_nil|by intros [-> _]].
  - destruct (strptime raw f) as [d|e'] eqn:Hf.
    + split; [done|]. intros [_ Hall]. destruct (Hall f) as [e'' He'']; [by left|].
      congruence.
    + rewrite IH. split; intros [-> Hall]; (split; [done|]).
      * intros fmt [->|Hin]%elem_of_cons; [by exists e'|by apply Hall].
      * intros fmt Hin. apply Hall. by right.
Qed.

Lemma resolve_anchor_exn args matched now e :
  resolve_anchor strptime args matched now = Raise e → e = ValueError.
Proof.
  unfold resolve_anchor. destruct (anchor_datetime args) as [|c raw].
  - destruct (filter _ _) as [|[x|] rest]; cbn.
    + by intros [= <-].
    + by destruct (fold_left _ rest (Some x)).
    + by destruct (fold_left _ rest None).
  - intros He. by apply parse_formats_Raise in He as [-> _].
Qed.

(** X17. With an [--anchor-datetime], the anchor is what the first of
    the four formats that accepts the string gives, the formats being
    tried in their written order; the matched rows and the clock play
    no part; and if no format accepts the string the error is a
    [ValueError], whatever [strptime] raised. *)
Theorem anchor_from_override args matched now :
  anchor_datetime args ≠ [] →
  (∀ dt, resolve_anchor strptime args matched now = Ok dt
         ↔ ∃ i fmt, anchor_formats !! i = Some fmt
                    ∧ strptime (anchor_datetime args) fmt = Ok dt
                    ∧ ∀ j fmt', (j < i)%nat → anchor_formats !! j = Some fmt' →
                                raises (strptime (anchor_datetime args) fmt'))
  ∧ (∀ e, resolve_anchor strptime args matched now = Raise e
          ↔ e = ValueError
            ∧ ∀ fmt, fmt ∈ anchor_formats →
                     raises (strptime (anchor_datetime args) fmt))
  ∧ (∀ matched' now',
       resolve_anchor strptime args matched' now'
       = resolve_anchor strptime args matched now).
Proof.
  intros Hraw.
  assert (∀ matched' now',
            resolve_anchor strptime args matched' now'
            = parse_anchor_datetime strptime (anchor_datetime args)) as Hparse
    by (intros matched' now'; by apply resolve_anchor_override).
  split_and!.
  - intros dt. rewrite Hparse. apply parse_formats_Ok.
  - intros e. rewrite Hparse. apply parse_formats_Raise.
  - intros matched' now'. by rewrite !Hparse.
Qed.

(** X18. Without an [--anchor-datetime], when some matched row has a
    [created_at], the anchor is the greatest [created_at] among the
    matched rows, rows without one being ignored; neither the parser
    nor the clock is consulted. *)
Theorem anchor_from_rows args matched now m0 t0 :
  anchor_datetime args = [] → m0 ∈ matched → Match.old_created_at m0 = Some t0 →
  ∃ t, resolve_anchor strptime args matched now = Ok t
       ∧ (∃ m, m ∈ matched ∧ Match.old_created_at m = Some t)
       ∧ (∀ m t', m ∈ matched → Match.old_created_at m = Some t' → t' ≤ t)
       ∧ (∀ strptime' now', resolve_anchor strptime' args matched now' = Ok t).
Proof.
  intros Hno Hm0 Ht0.
  destruct (resolve_anchor_max strptime args matched now m0 t0 Hno Hm0 Ht0)
    as (t & Hok & Hmem & Hmax).
  exists t. split_and!; [done..|]. intros strptime' now'. rewrite <- Hok.
  transitivity (resolve_anchor strptime args matched now').
  - unfold resolve_anchor. by rewrite Hno.
  - apply resolve_anchor_ignores_now.
Qed.

End AnchorStages.

Lemma anchor_from_override_witness :
  resolve_anchor strptime_minutes (mkArgs 1 (lit "2024-01-01T00:00") false)
                 (fst ex_match) 0
  = Ok ex_anchor.
Proof.
  destruct (anchor_from_override strptime_minutes
              (mkArgs 1 (lit "2024-01-01T00:00") false) (fst ex_match) 0)
    as (Hok & _); [discriminate|].
  apply Hok. exists 2%nat, (lit "%Y-%m-%dT%H:%M"). split_and!; [reflexivity..|].
  intros [|[|j]] fmt' Hj Hfmt; [| |lia]; vm_compute in Hfmt; injection Hfmt as <-;
    by exists ValueError.
Defined.

Lemma anchor_from_rows_witness :
  ∃ t, resolve_anchor strptime_reject ex_dense ex_dated 0 = Ok t
       ∧ ∀ m t', m ∈ ex_dated → Match.old_created_at m = Some t' → t' ≤ t.
Proof.
  destruct (ex_dated !! 0%nat) as [m0|] eqn:Hm0; [|by vm_compute in Hm0].
  destruct (anchor_from_rows strptime_reject ex_dense ex_dated 0 m0 (ex_anchor - 5000000))
    as (t & Hok & _ & Hmax & _).
  - reflexivity.
  - by eapply list_elem_of_lookup_2.
  - vm_compute in Hm0. injection Hm0 as <-. reflexivity.
  - exists t. split; [exact Hok|exact Hmax].
Defined.

(** ** The outcomes of [main] *)

Section MainOutcomes.
Context `{UnicodeData}.
Variable strptime : str → str → Result datetime.

Lemma main_small_step args entries rows now :
  step_seconds args < 1 → main strptime args entries rows now = Ok (Exit 2).
Proof. intros Hstep. unfold main. by rewrite decide_True. Qed.

Lemma main_after_fetch args entries rows now likes :
  1 ≤ step_seconds args → fetch_likes entries = Ok likes →
  main strptime args entries rows now
  = match rows with
    | [] => Ok (Exit 3)
    | _ =>
        match (match_rows_to_likes rows (build_likes_maps likes).1
                                   (build_likes_maps likes).2).1 with
        | [] => Ok (Exit 3)
        | matched =>
            anchor ← resolve_anchor strptime args matched now;
            planned ← assign_created_at args anchor matched;
            Ok (Planned (ensure_millis_precision anchor) planned
                  (match_rows_to_likes rows (build_likes_maps likes).1
                                       (build_likes_maps likes).2).2)
        end
    end.
Proof.
  intros Hstep Hf. unfold main. rewrite decide_False by lia. rewrite Hf.
  cbn [mbind Result_bind]. destruct (build_likes_maps likes) as [by_exact by_norm].
  destruct rows as [|row rows]; [done|]. cbn [fst snd].
  by destruct (match_rows_to_likes (row :: rows) by_exact by_norm) as [[|m matched] un].
Qed.

Lemma main_exit_codes args entries rows now :
  (main strptime args entries rows now = Ok (Exit 2) ↔ step_seconds args < 1)
  ∧ (main strptime args entries rows now = Ok (Exit 3)
     ↔ 1 ≤ step_seconds args
       ∧ ∃ likes, fetch_likes entries = Ok likes
                  ∧ (rows = []
                     ∨ (match_rows_to_likes rows (build_likes_maps likes).1
                                            (build_likes_maps likes).2).1 = []))
  ∧ (∀ code, main strptime args entries rows now = Ok (Exit code) →
             code = 2 ∨ code = 3)
  ∧ (main strptime args entries rows now = Raise RuntimeError
     ↔ 1 ≤ step_seconds args ∧ collect_likes 1 entries = []).
Proof.
  destruct (decide (step_seconds args < 1)) as [Hstep|Hstep].
  { rewrite (main_small_step _ _ _ _ Hstep). split_and!.
    - done.
    - split; [done|]. intros [Hge _]. lia.
    - intros code [= <-]. by left.
    - split; [done|]. intros [Hge _]. lia. }
  assert (1 ≤ step_seconds args) as Hge by lia.
  destruct (fetch_likes_cases entries) as [[Hc Hf]|[Hc Hf]].
  { assert (main strptime args entries rows now = Raise RuntimeError) as ->.
    { unfold main. rewrite decide_False by lia. by rewrite Hf. }
    split_and!.
    - split; [done|]. intros Hlt. lia.
    - split; [done|]. intros [_ (likes & Hl & _)]. congruence.
    - done.
    - done. }
  rewrite (main_after_fetch _ _ _ _ _ Hge Hf).
  destruct rows as [|row rows].
  { split_and!.
    - split; [done|]. intros Hlt. lia.
    - split; [|done]. intros _. split; [done|]. eexists. split; [done|]. by left.
    - intros code [= <-]. by right.
    - split; [done|]. by intros [_ Hnil]. }
  destruct (match_rows_to_likes (row :: rows) _ _).1 as [|m matched] eqn:Hm.
  { split_and!.
    - split; [done|]. intros Hlt. lia.
    - split; [|done]. intros _. split; [done|]. eexists. split; [done|]. by right.
    - intros code [= <-]. by right.
    - split; [done|]. by intros [_ Hnil]. }
  cbn zeta.
  destruct (resolve_anchor strptime args (m :: matched) now) as [anchor|e] eqn:Ha.
  - cbn [mbind Result_bind].
    destruct (assign_created_at args anchor (m :: matched)) as [planned|e] eqn:Hp;
      cbn [mbind Result_bind].
    + split_and!.
      * split; [done|]. intros Hlt. lia.
      * split; [done|]. intros [_ (likes & Hl & [Hr|Hr])]; [done|].
        rewrite Hf in Hl. injection Hl as <-. rewrite Hm in Hr. done.
      * intros code Hcode. discriminate Hcode.
      * split; [done|]. by intros [_ Hnil].
    + pose proof (assign_from_exn _ _ _ _ _ Hp) as ->. split_and!.
      * split; [done|]. intros Hlt. lia.
      * split; [done|]. intros [_ (likes & Hl & [Hr|Hr])]; [done|].
        rewrite Hf in Hl. injection Hl as <-. rewrite Hm in Hr. done.
      * intros code Hcode. discriminate Hcode.
      * split; [done|]. by intros [_ Hnil].
  - cbn [mbind Result_bind]. pose proof (resolve_anchor_exn _ _ _ _ _ Ha) as ->.
    split_and!.
    + split; [done|]. intros Hlt. lia.
    + split; [done|]. intros [_ (likes & Hl & [Hr|Hr])]; [done|].
      rewrite Hf in Hl. injection Hl as <-. rewrite Hm in Hr. done.
    + intros code Hcode. discriminate Hcode.
    + split; [done|]. by intros [_ Hnil].
Qed.

Lemma strongly_sorted_Forall2 (l l' : list Match.t) :
  Forall2 (λ m m', ∃ t, m' = set_new_created_at m t) l l' →
  StronglySorted (key_le Match.sc_index) l →
  StronglySorted (key_le Match.sc_index) l'.
Proof.
  induction 1 as [|m m' l l' [t ->] Hall IH]; [constructor|].
  intros Hs. apply StronglySorted_inv in Hs as [Hs Hm]. constructor; [by apply IH|].
  clear IH Hs. induction Hall as [|x x' l l' [t' ->] Hall IH]; [constructor|].
  apply Forall_cons in Hm as [Hx Hm]. constructor; [exact Hx|by apply IH].
Qed.

(** X20. A run of [main] that reaches the plan accounts for every row:
    planned and unmatched records together are as many as the rows, the
    plan is not empty and ascends in like index from an index of at
    least 1, the reported anchor has a non-zero microsecond field, and
    every planned record carries a new timestamp with the microsecond
    field of the anchor and not later than it. *)
Theorem main_plan_summary args entries rows now anchor planned unmatched :
  main strptime args entries rows now = Ok (Planned anchor planned unmatched) →
  (length planned + length unmatched = length rows)%nat
  ∧ planned ≠ []
  ∧ StronglySorted (key_le Match.sc_index) planned
  ∧ microsecond anchor ≠ 0
  ∧ ∀ m, m ∈ planned →
         1 ≤ Match.sc_index m
         ∧ ∃ t, Match.new_created_at m = Some t
                ∧ DjmdContent.created_at (Match.row m) = Some t
                ∧ microsecond t = microsecond anchor
                ∧ t ≤ anchor.
Proof.
  intros Hmain.
  destruct (main_Planned_inv strptime _ _ _ _ _ _ _ Hmain)
    as (likes & matched & anchor0 & Hstep & Hf & Hl & Hmatch & Hne & Ha & -> & Hp).
  destruct (assign_created_at_Ok _ _ _ _ Hp) as [Hlen Hnth].
  assert (∀ m, m ∈ matched → 1 ≤ Match.sc_index m) as Hranks.
  { intros m Hm. rewrite match_rows_outcomes in Hmatch. injection Hmatch as <- _.
    apply elem_of_lefts, list_elem_of_fmap in Hm as (row & Hrow & _).
    symmetry in Hrow.
    destruct (row_outcome_matched likes row m Hrow) as (e & mode & He & -> & _). cbn.
    destruct (fetch_likes_cases entries) as [[Hc Hf']|[Hc Hf']]; rewrite Hf' in Hf;
      [done|]. injection Hf as <-.
    pose proof (collect_likes_bounds 1 entries) as Hb. rewrite Forall_forall in Hb.
    by destruct (Hb e He). }
  split_and!.
  - rewrite Hlen. replace matched with
      (match_rows_to_likes rows (build_likes_maps likes).1 (build_likes_maps likes).2).1
      by by rewrite Hmatch.
    replace unmatched with
      (match_rows_to_likes rows (build_likes_maps likes).1 (build_likes_maps likes).2).2
      by by rewrite Hmatch.
    rewrite match_rows_outcomes. cbn [fst snd].
    by rewrite lefts_rights_length, length_fmap.
  - intros ->. cbn in Hlen. by destruct matched.
  - eapply strongly_sorted_Forall2; [exact (planned_Forall2 _ _ _ _ Hp)|].
    apply sorted_strongly_sorted.
  - apply ensure_millis_precision_nonzero.
  - intros m Hm. apply list_elem_of_lookup in Hm as [p Hpl].
    destruct (planned_lookup _ _ _ _ _ _ Hp Hpl) as (m0 & Hm0 & ->). cbn.
    assert (m0 ∈ matched) as Hin.
    { rewrite <- (sorted_perm Match.sc_index matched). by eapply list_elem_of_lookup_2. }
    split; [by apply Hranks|]. eexists. split_and!; [done..| |].
    + apply spec_new_timestamp_microsecond.
    + specialize (Hranks m0 Hin).
      unfold spec_new_timestamp, spec_offset_steps, US_PER_SECOND.
      destruct (use_like_index_offset args); nia.
Qed.

Lemma fetch_likes_run_Ok run likes :
  fetch_likes_run run = Ok likes
  ↔ yt_dlp_found run = true ∧ returncode run = 0
    ∧ ∃ entries, payload_entries run = Some entries
                 ∧ fetch_likes (default [] entries) = Ok likes.
Proof.
  unfold fetch_likes_run. destruct (yt_dlp_found run); cbn [negb].
  - case_decide as Hrc.
    + split; [done|]. by intros (_ & Hz & _).
    + destruct (payload_entries run) as [entries|].
      * split.
        -- intros Hf. split_and!; [done|lia|]. by exists entries.
        -- by intros (_ & _ & entries' & [= <-] & Hf).
      * split; [done|]. by intros (_ & _ & entries & He & _).
  - split; [done|]. by intros [? _].
Qed.

Lemma fetch_likes_run_Raise run e :
  fetch_likes_run run = Raise e
  ↔ e = RuntimeError
    ∧ (yt_dlp_found run = false ∨ returncode run ≠ 0 ∨ payload_entries run = None
       ∨ ∃ entries, payload_entries run = Some entries
                    ∧ collect_likes 1 (default [] entries) = []).
Proof.
  unfold fetch_likes_run. destruct (yt_dlp_found run); cbn [negb].
  - case_decide as Hrc.
    + split; [intros [= <-]; split; [done|]; right; by left|by intros [-> _]].
    + destruct (payload_entries run) as [entries|].
      * destruct (fetch_likes_cases (default [] entries)) as [[Hc ->]|[Hc ->]].
        -- split; [|by intros [-> _]]. intros [= <-]. split; [done|].
           do 3 right. by exists entries.
        -- split; [done|]. intros [_ [?|[?|[?|(entries' & [= <-] & Hnil)]]]]; done.
      * split; [|by intros [-> _]]. intros [= <-]. split; [done|].
        right. right. by left.
  - split; [|by intros [-> _]]. intros [= <-]. split; [done|]. by left.
Qed.

Lemma main_full_fetched args run rows now entries :
  yt_dlp_found run = true → returncode run = 0 →
  payload_entries run = Some entries →
  main_full strptime args true true run rows now
  = main strptime args (default [] entries) rows now.
Proof.
  intros Hyt Hrc Hp. unfold main_full, main, fetch_likes_run.
  rewrite Hyt, Hp. cbn [negb]. by rewrite (decide_False (P := returncode run ≠ 0)) by lia.
Qed.

(** X19. The ways [main] ends before planning. Exit code 2 exactly when
    [--step-seconds] is below 1, or [master.db] is missing, or the
    target directory is missing; the step is checked first and nothing
    is fetched before the three checks. Exit code 3 exactly when the
    three checks pass, [fetch_likes] returns likes, and there is no row
    or no row matched. [RuntimeError] exactly when the three checks pass
    and [fetch_likes] raises, which it does when [yt-dlp] is not
    installed, or returns a non-zero code, or prints no JSON, or its
    entries hold no like with a title. Before the plan is made no other
    exit code is returned. *)
Theorem main_full_exit_codes args db_exists target_exists run rows now :
  (main_full strptime args db_exists target_exists run rows now = Ok (Exit 2)
   ↔ step_seconds args < 1 ∨ db_exists = false ∨ target_exists = false)
  ∧ (main_full strptime args db_exists target_exists run rows now = Ok (Exit 3)
     ↔ 1 ≤ step_seconds args ∧ db_exists = true ∧ target_exists = true
       ∧ ∃ likes, fetch_likes_run run = Ok likes
                  ∧ (rows = []
                     ∨ (match_rows_to_likes rows (build_likes_maps likes).1
                                            (build_likes_maps likes).2).1 = []))
  ∧ (∀ code, main_full strptime args db_exists target_exists run rows now
             = Ok (Exit code) →
             code = 2 ∨ code = 3)
  ∧ (main_full strptime args db_exists target_exists run rows now = Raise RuntimeError
     ↔ 1 ≤ step_seconds args ∧ db_exists = true ∧ target_exists = true
       ∧ raises (fetch_likes_run run))
  ∧ (raises (fetch_likes_run run)
     ↔ yt_dlp_found run = false ∨ returncode run ≠ 0 ∨ payload_entries run = None
       ∨ ∃ entries, payload_entries run = Some entries
                    ∧ collect_likes 1 (default [] entries) = [])
  ∧ (∀ e, fetch_likes_run run = Raise e → e = RuntimeError)
  ∧ (∀ likes, fetch_likes_run run = Ok likes
              ↔ likes ≠ [] ∧ yt_dlp_found run = true ∧ returncode run = 0
                ∧ ∃ entries, payload_entries run = Some entries
                             ∧ likes = collect_likes 1 (default [] entries))
  ∧ (∀ entries, yt_dlp_found run = true → returncode run = 0 →
                payload_entries run = Some entries →
                main_full strptime args true true run rows now
                = main strptime args (default [] entries) rows now).
Proof.
  assert (raises (fetch_likes_run run)
          ↔ yt_dlp_found run = false ∨ returncode run ≠ 0 ∨ payload_entries run = None
            ∨ ∃ entries, payload_entries run = Some entries
                         ∧ collect_likes 1 (default [] entries) = []) as Hraises.
  { split.
    - intros [e He]. by apply fetch_likes_run_Raise in He as [_ He].
    - intros Hc. exists RuntimeError. by apply fetch_likes_run_Raise. }
  assert (∀ e, fetch_likes_run run = Raise e → e = RuntimeError) as Hexn.
  { intros e He. by apply fetch_likes_run_Raise in He as [-> _]. }
  assert (∀ likes, fetch_likes_run run = Ok likes
                   ↔ likes ≠ [] ∧ yt_dlp_found run = true ∧ returncode run = 0
                     ∧ ∃ entries, payload_entries run = Some entries
                                  ∧ likes = collect_likes 1 (default [] entries))
    as Hok.
  { intros likes. rewrite fetch_likes_run_Ok. split.
    - intros (Hyt & Hrc & entries & Hp & Hf).
      destruct (fetch_likes_cases (default [] entries)) as [[Hc Hf']|[Hc Hf']];
        rewrite Hf' in Hf; [done|]. injection Hf as <-.
      split_and!; [done..|]. by exists entries.
    - intros (Hne & Hyt & Hrc & entries & Hp & ->). split_and!; [done..|].
      exists entries. split; [done|].
      by destruct (fetch_likes_cases (default [] entries)) as [[Hc Hf']|[Hc Hf']]. }
  split_and!; [| | | |exact Hraises|exact Hexn|exact Hok|apply main_full_fetched].
  all: unfold main_full.
  all: destruct (decide (step_seconds args < 1)) as [Hstep|Hstep].
  all: try (rewrite decide_True by done).
  all: try (rewrite decide_False by done).
  1: { split; [by left|done]. }
  2: { split; [done|]. intros [Hge _]. lia. }
  3: { intros code [= <-]. by left. }
  4: { split; [done|]. intros [Hge _]. lia. }
  all: destruct db_exists; cbn [negb].
  2: { split; [right; by left|done]. }
  3: { split; [done|]. by intros (_ & ? & _). }
  4: { intros code [= <-]. by left. }
  5: { split; [done|]. by intros (_ & ? & _). }
  all: destruct target_exists; cbn [negb].
  2: { split; [right; by right|done]. }
  3: { split; [done|]. by intros (_ & _ & ? & _). }
  4: { intros code [= <-]. by left. }
  5: { split; [done|]. by intros (_ & _ & ? & _). }
  all: destruct (fetch_likes_run run) as [likes|e] eqn:Hrun; cbn [mbind Result_bind].
  2: { split; [done|]. intros [?|[?|?]]; [lia|done|done]. }
  3: { split; [done|]. by intros (_ & _ & _ & likes & ? & _). }
  4: { done. }
  5: { rewrite (Hexn e eq_refl). split; [|done]. intros _.
       split_and!; [lia|done|done|]. by exists RuntimeError. }
  all: apply fetch_likes_run_Ok in Hrun as (Hyt & Hrc & entries & Hp & Hf).
  all: destruct (main_exit_codes args (default [] entries) rows now)
         as (H2 & H3 & Hcodes & Hrt).
  all: pose proof (main_after_fetch args (default [] entries) rows now likes
                     ltac:(lia) Hf) as Hmain.
  all: assert (main strptime args (default [] entries) rows now
               = (let '(by_exact, by_norm) := build_likes_maps likes in
                  match rows with
                  | [] => Ok (Exit 3)
                  | _ :: _ =>
                      let '(matched, unmatched) :=
                        match_rows_to_likes rows by_exact by_norm in
                      match matched with
                      | [] => Ok (Exit 3)
                      | _ :: _ =>
                          anchor ← resolve_anchor strptime args matched now;
                          planned ← assign_created_at args anchor matched;
                          Ok (Planned (ensure_millis_precision anchor) planned
                                unmatched)
                      end
                  end)) as <-
         by (unfold main; rewrite decide_False by done; by rewrite Hf).
  - rewrite H2. split; [lia|]. intros [?|[?|?]]; [lia|done|done].
  - rewrite H3. split.
    + intros (Hge & likes' & Hl & Hcase). rewrite Hf in Hl. injection Hl as <-.
      split_and!; [done..|]. by exists likes.
    + intros (Hge & _ & _ & likes' & [= <-] & Hcase). split; [done|].
      by exists likes.
  - exact Hcodes.
  - rewrite Hrt. split.
    + intros [_ Hnil].
      destruct (fetch_likes_cases (default [] entries)) as [[Hc Hf']|[Hc Hf']];
        congruence.
    + by intros (_ & _ & _ & e & ?).
Qed.

End MainOutcomes.

Lemma main_full_exit_codes_witness :
  main_full strptime_reject ex_dense false true ex_run ex_rows 0 = Ok (Exit 2)
  ∧ main_full strptime_reject ex_dense true true ex_run [ex_row "track4.mp3" "Z"] 0
    = Ok (Exit 3).
Proof.
  split.
  - apply (main_full_exit_codes strptime_reject ex_dense false true ex_run ex_rows 0).
    right. left. reflexivity.
  - apply (main_full_exit_codes strptime_reject ex_dense true true ex_run
             [ex_row "track4.mp3" "Z"] 0).
    split_and!; [vm_compute; discriminate|reflexivity|reflexivity|].
    exists ex_likes. split.
    + vm_compute. reflexivity.
    + right. vm_compute. reflexivity.
Defined.

Lemma main_plan_summary_witness :
  ∃ anchor planned unmatched,
    main strptime_minutes (mkArgs 1 (lit "2024-01-01T00:00") true) ex_entries ex_rows 0
    = Ok (Planned anchor planned unmatched)
    ∧ (length planned + length unmatched = length ex_rows)%nat.
Proof.
  destruct (main strptime_minutes (mkArgs 1 (lit "2024-01-01T00:00") true)
              ex_entries ex_rows 0)
    as [[code|anchor planned unmatched]|e] eqn:Hmain.
  - vm_compute in Hmain. discriminate Hmain.
  - exists anchor, planned, unmatched. split; [reflexivity|].
    apply (main_plan_summary strptime_minutes _ _ _ _ _ _ _ Hmain).
  - vm_compute in Hmain. discriminate Hmain.
Defined.

Section NoMatch.
Context `{UnicodeData}.

(** X21. When no candidate of any row is a key of either dictionary, in
    particular with two empty dictionaries, [match_rows_to_likes]
    matches nothing and reports every row as unmatched, in row order,
    with its path, its local title and the reason
    ["not-found-in-likes"]. *)
Theorem rows_without_hit_all_unmatched (rows : list DjmdContent.t)
  (by_exact by_norm : gmap str LikeEntry.t) :
  (∀ row c, row ∈ rows → c ∈ candidates_of row →
            by_exact !! c = None ∧ norm_lookup by_norm c = None) →
  match_rows_to_likes rows by_exact by_norm = ([], unmatched_of <$> rows)
  ∧ match_rows_to_likes rows ∅ ∅ = ([], unmatched_of <$> rows).
Proof.
  assert (∀ be bn : gmap str LikeEntry.t,
            (∀ row c, row ∈ rows → c ∈ candidates_of row →
                      be !! c = None ∧ norm_lookup bn c = None) →
            match_rows_to_likes rows be bn = ([], unmatched_of <$> rows)) as Hgen.
  { intros be bn Hmiss. rewrite match_rows_outcomes.
    induction rows as [|row rows IH]; [done|].
    assert (row_outcome be bn row = inr (unmatched_of row)) as Hrow.
    { apply row_outcome_unmatched. split; [done|]. intros c Hc.
      apply (Hmiss row c); [by left|done]. }
    rewrite !fmap_cons, Hrow. cbn [lefts rights].
    assert ((lefts (row_outcome be bn <$> rows), rights (row_outcome be bn <$> rows))
            = ([], unmatched_of <$> rows)) as Htail.
    { apply IH. intros row' c Hr Hc. apply (Hmiss row' c); [by right|done]. }
    injection Htail as -> ->. done. }
  intros Hmiss. split; [by apply Hgen|]. apply Hgen. intros row c _ _.
  split; [apply lookup_empty|]. unfold norm_lookup.
  destruct (normalize_title c); [done|apply lookup_empty].
Qed.

End NoMatch.

Lemma rows_without_hit_all_unmatched_witness :
  match_rows_to_likes [ex_row "track4.mp3" "Z"]
    (build_likes_maps ex_likes).1 (build_likes_maps ex_likes).2
  = ([], [unmatched_of (ex_row "track4.mp3" "Z")]).
Proof.
  destruct (rows_without_hit_all_unmatched [ex_row "track4.mp3" "Z"]
              (build_likes_maps ex_likes).1 (build_likes_maps ex_likes).2)
    as [Hmatch _]; [|exact Hmatch].
  intros row c Hrow Hc. apply elem_of_cons in Hrow as [->|Hrow];
    [|by apply elem_of_nil in Hrow].
  destruct (ex_row_Z_misses c Hc) as [He Hn]. split; [exact He|].
  unfold norm_lookup. destruct (normalize_title c); [reflexivity|exact Hn].
Defined.
